(** * Signaling server: room registry and relay handlers

    A shallow embedding of [src/main.py] (a Socket.IO signaling relay) and
    the properties of its room registry and of its event handlers.

    The two module-level dictionaries [rooms] and [peer_meta] are the state;
    the calls made on the Socket.IO server object ([enter_room],
    [leave_room], [emit]) are recorded in an output trace; the two Python
    exceptions the handlers can raise on JSON input ([AttributeError] from
    [.get] on a value that is not a dict, [TypeError] from using a list or a
    dict as a dictionary key) are results. Calls of [LOGGER] are not
    modelled. *)

From stdpp Require Import gmap strings list fin_maps.
From Stdlib Require Import SpecFloat.

Local Open Scope string_scope.
Local Open Scope list_scope.
Set Warnings "-register-all".

(** ** Values *)

(** The JSON values a Socket.IO client can send, as Python sees them. A
    number is an [int] or a [float]; a float is an IEEE double, kept as its
    sign, mantissa and exponent (of value [m * 2 ^ e]), a zero, an infinity
    or NaN ([json.loads] accepts the literals [NaN] and [Infinity]). A dict
    decoded from JSON has string keys; it is kept as an association list,
    read by [dict_get]. *)
Inductive Value :=
| VNone
| VBool (b : bool)
| VInt (z : Z)
| VFloat (f : spec_float)
| VStr (s : string)
| VList (l : list Value)
| VDict (d : list (string * Value)).

(** Python's truth value: [None], [False], [0], [0.0] and [-0.0], the empty
    string, the empty list and the empty dict are false; NaN is true. *)
Definition truthy (v : Value) : bool :=
  match v with
  | VNone => false
  | VBool b => b
  | VInt z => negb (Z.eqb z 0)
  | VFloat f => match f with S754_zero _ => false | _ => true end
  | VStr s => negb (String.eqb s "")
  | VList l => match l with [] => false | _ => true end
  | VDict d => match d with [] => false | _ => true end
  end.

(** [a or b] *)
Definition py_or (a b : Value) : Value := if truthy a then a else b.

(** [v is None] *)
Definition is_none (v : Value) : bool :=
  match v with VNone => true | _ => false end.

(** [d.get(key)]: the value bound to [key], [None] when there is none. *)
Fixpoint dict_get (d : list (string * Value)) (key : string) : Value :=
  match d with
  | [] => VNone
  | (k, v) :: d' => if String.eqb k key then v else dict_get d' key
  end.

(** What a Python dict keeps of a key. [None], numbers and strings are
    hashable; lists and dicts are not. Numbers that are equal are one key,
    whatever their type: [True] is [1], [1.0] is [1]. A number with a
    fraction is kept as [m * 2 ^ e] with [m] odd and [e] negative, the one
    way to write it. NaN is one key too: [json.loads] gives the same object
    for every NaN literal, and a dict finds a key by identity before it
    compares with [==]. *)
Inductive HKey :=
| KNone
| KInt (z : Z)
| KStr (s : string)
| KFrac (neg : bool) (m : positive) (e : Z)
| KInf (neg : bool)
| KNaN.

(** Halves an even mantissa while the exponent is negative. *)
Fixpoint reduce_mantissa (m : positive) (e : Z) : positive * Z :=
  match m with
  | xO m' => if (e <? 0)%Z then reduce_mantissa m' (e + 1) else (m, e)
  | _ => (m, e)
  end.

Definition float_key (f : spec_float) : HKey :=
  match f with
  | S754_zero _ => KInt 0
  | S754_infinity neg => KInf neg
  | S754_nan => KNaN
  | S754_finite neg m e =>
      let (m', e') := reduce_mantissa m e in
      if (0 <=? e')%Z then KInt ((if neg then -1 else 1) * (Z.pos m' * 2 ^ e'))
      else KFrac neg m' e'
  end.

Definition hash_key (v : Value) : option HKey :=
  match v with
  | VNone => Some KNone
  | VBool b => Some (KInt (if b then 1 else 0))
  | VInt z => Some (KInt z)
  | VFloat f => Some (float_key f)
  | VStr s => Some (KStr s)
  | VList _ | VDict _ => None
  end.

Global Instance HKey_eq_dec : EqDecision HKey.
Proof. solve_decision. Defined.

Definition HKey_to_sum (k : HKey)
  : unit + (Z + (string + (bool * positive * Z + (bool + unit)))) :=
  match k with
  | KNone => inl ()
  | KInt z => inr (inl z)
  | KStr s => inr (inr (inl s))
  | KFrac neg m e => inr (inr (inr (inl (neg, m, e))))
  | KInf neg => inr (inr (inr (inr (inl neg))))
  | KNaN => inr (inr (inr (inr (inr ()))))
  end.

Definition HKey_of_sum
    (x : unit + (Z + (string + (bool * positive * Z + (bool + unit))))) : HKey :=
  match x with
  | inl _ => KNone
  | inr (inl z) => KInt z
  | inr (inr (inl s)) => KStr s
  | inr (inr (inr (inl (neg, m, e)))) => KFrac neg m e
  | inr (inr (inr (inr (inl neg)))) => KInf neg
  | inr (inr (inr (inr (inr _)))) => KNaN
  end.

Global Instance HKey_countable : Countable HKey :=
  inj_countable' HKey_to_sum HKey_of_sum
    (λ k, match k with
          | KNone | KInt _ | KStr _ | KFrac _ _ _ | KInf _ | KNaN => eq_refl
          end).

(** [v == room] for a hashable [room] of key [k]: the two are the same key,
    and that key is not NaN, which no value equals, itself included. *)
Definition py_eq_key (v : Value) (k : HKey) : bool :=
  bool_decide (hash_key v = Some k) && negb (bool_decide (k = KNaN)).

(** ** State and transport *)

(** One entry of [peer_meta]: the dict [{"name": name, "room": room}], the
    only shape the code ever stores (line 57). *)
Record Meta := mkMeta { m_name : Value; m_room : Value }.

(** The module-level dictionaries. [rooms] is a [defaultdict(set)]: an
    entry can be present with an empty set. *)
Record State := mkState {
  rooms : gmap HKey (gset string);
  peer_meta : gmap string Meta
}.

Definition init : State := mkState ∅ ∅.

(** [rooms.get(room, set())] once the key is hashed. *)
Definition members (st : State) (k : HKey) : gset string :=
  default ∅ (rooms st !! k).

(** Where an [emit] goes: [room=room] (with [skip_sid]) or [to=target]. *)
Inductive Dest :=
| ToRoom (room : Value) (skip_sid : option string)
| ToSid (target : Value).

(** The calls on the Socket.IO server object. *)
Inductive Call :=
| EnterRoom (sid : string) (room : Value)
| LeaveRoom (sid : string) (room : Value)
| Emit (event : string) (payload : Value) (dest : Dest).

Inductive Exn := AttributeError | TypeError.

(** ** The handler monad: state, output trace, exceptions *)

Record Res (A : Type) := mkRes {
  res_st : State;
  res_out : list Call;
  res_val : Exn + A
}.
Arguments mkRes {A} _ _ _.
Arguments res_st {A} _.
Arguments res_out {A} _.
Arguments res_val {A} _.

Definition M (A : Type) : Type := State → Res A.

Definition ret {A} (a : A) : M A := λ st, mkRes st [] (inr a).

Definition raise {A} (e : Exn) : M A := λ st, mkRes st [] (inl e).

Definition bind {A B} (m : M A) (f : A → M B) : M B := λ st,
  let r := m st in
  match res_val r with
  | inl e => mkRes (res_st r) (res_out r) (inl e)
  | inr a =>
      let r' := f a (res_st r) in
      mkRes (res_st r') (res_out r ++ res_out r') (res_val r')
  end.

Declare Scope M_scope.
Delimit Scope M_scope with M.
Bind Scope M_scope with M.
Notation "x ← y ; z" := (bind y (λ x, z))
  (at level 20, y at level 100, z at level 200, only parsing) : M_scope.
Notation "y ;; z" := (bind y (λ _, z))
  (at level 100, z at level 200, only parsing, right associativity) : M_scope.

Definition gets {A} (f : State → A) : M A := λ st, mkRes st [] (inr (f st)).

Definition modify (f : State → State) : M unit := λ st, mkRes (f st) [] (inr ()).

Definition transport (c : Call) : M unit := λ st, mkRes st [c] (inr ()).

Definition emit (event : string) (payload : Value) (dest : Dest) : M unit :=
  transport (Emit event payload dest).

(** Hashing a dictionary key: [TypeError: unhashable type]. *)
Definition hash_of (v : Value) : M HKey :=
  match hash_key v with
  | Some k => ret k
  | None => raise TypeError
  end.

(** The receiver of [.get]: [AttributeError] on anything but a dict. *)
Definition as_dict (v : Value) : M (list (string * Value)) :=
  match v with
  | VDict d => ret d
  | _ => raise AttributeError
  end.

(** [rooms[room].add(sid)]: the defaultdict creates the entry if needed. *)
Definition rooms_add (k : HKey) (sid : string) : M unit :=
  modify (λ st, mkState (<[k := members st k ∪ {[sid]}]> (rooms st)) (peer_meta st)).

(** [rooms[room].discard(sid)]: the defaultdict creates the entry if needed. *)
Definition rooms_discard (k : HKey) (sid : string) : M unit :=
  modify (λ st, mkState (<[k := members st k ∖ {[sid]}]> (rooms st)) (peer_meta st)).

(** [peer_meta[sid] = meta] *)
Definition meta_set (sid : string) (m : Meta) : M unit :=
  modify (λ st, mkState (rooms st) (<[sid := m]> (peer_meta st))).

(** [peer_meta.pop(sid, None)] *)
Definition meta_pop (sid : string) : M (option Meta) := λ st,
  mkRes (mkState (rooms st) (delete sid (peer_meta st))) [] (inr (peer_meta st !! sid)).

(** [peer_meta.get(sid)] *)
Definition meta_get (sid : string) : M (option Meta) :=
  gets (λ st, peer_meta st !! sid).

(** [peer_meta.get(sid, {}).get("name", sid)] *)
Definition display_name (st : State) (sid : string) : Value :=
  match peer_meta st !! sid with
  | Some m => m_name m
  | None => VStr sid
  end.

(** ** The handlers *)

(** Line 20: the peer list of a room, emitted to the room. Python lists a
    set in an order that depends on the hashes and on the history of the
    set; [elements] is one such order, and the properties below speak of
    the entries and the length of a peer list, never of their order. *)
Definition peer_entry (st : State) (sid : string) : Value :=
  VDict [("sid", VStr sid); ("name", display_name st sid)].

Definition peer_list (st : State) (k : HKey) : list Value :=
  peer_entry st <$> elements (members st k).

Definition broadcast_peer_list (room : Value) : M unit :=
  (k ← hash_of room;
   peers ← gets (λ st, peer_list st k);
   emit "peer-list" (VDict [("peers", VList peers)]) (ToRoom room None))%M.

Definition sid_payload (sid : string) : Value := VDict [("sid", VStr sid)].

(** Line 32: [connect] only logs. *)
Definition connect (sid : string) : M unit := ret ().

(** Line 37. A stored [info] is a dict of two keys, hence true. *)
Definition disconnect (sid : string) : M unit :=
  (info ← meta_pop sid;
   match info with
   | None => ret ()
   | Some info =>
       let room := m_room info in
       if truthy room then
         k ← hash_of room;
         rooms_discard k sid;;
         emit "peer-left" (sid_payload sid) (ToRoom room None);;
         broadcast_peer_list room
       else ret ()
   end)%M.

(** Line 49. *)
Definition join (sid : string) (data : Value) : M unit :=
  (d ← as_dict (py_or data (VDict []));
   let room := dict_get d "room" in
   let name := py_or (dict_get d "name") (VStr sid) in
   if negb (truthy room) then ret ()
   else
     transport (EnterRoom sid room);;
     k ← hash_of room;
     rooms_add k sid;;
     meta_set sid (mkMeta name room);;
     emit "peer-joined" (sid_payload sid) (ToRoom room (Some sid));;
     broadcast_peer_list room)%M.

(** Line 64. [peer_meta.pop] drops the whole entry of the peer. *)
Definition leave (sid : string) (data : Value) : M unit :=
  (d ← as_dict (py_or data (VDict []));
   let room := dict_get d "room" in
   if negb (truthy room) then ret ()
   else
     transport (LeaveRoom sid room);;
     k ← hash_of room;
     rooms_discard k sid;;
     meta ← meta_get sid;
     match meta with
     | Some m => if py_eq_key (m_room m) k then _ ← meta_pop sid; ret () else ret ()
     | None => ret ()
     end;;
     emit "peer-left" (sid_payload sid) (ToRoom room None);;
     broadcast_peer_list room)%M.

(** Line 93. *)
Definition list_peers (sid : string) (data : Value) : M unit :=
  (d ← as_dict (py_or data (VDict []));
   let room := dict_get d "room" in
   if negb (truthy room) then ret ()
   else broadcast_peer_list room)%M.

(** Line 101. *)
Definition signal (sid : string) (data : Value) : M unit :=
  (if negb (truthy data) then ret ()
   else
     d ← as_dict data;
     let room := dict_get d "room" in
     let payload := dict_get d "payload" in
     if negb (truthy room) then ret ()
     else
       emit "signal" (VDict [("from", VStr sid); ("payload", payload)])
            (ToRoom room (Some sid)))%M.

(** Line 118. *)
Definition offer (sid : string) (data : Value) : M unit :=
  (if negb (truthy data) then ret ()
   else
     d ← as_dict data;
     let room := dict_get d "room" in
     let target := dict_get d "target" in
     let payload := dict_get d "payload" in
     if negb (truthy room) || negb (truthy target) || is_none payload then ret ()
     else
       sender_name ← gets (λ st, display_name st sid);
       emit "offer"
            (VDict [("from", VStr sid); ("name", sender_name); ("payload", payload)])
            (ToSid target))%M.

(** Line 136. *)
Definition offer_response (sid : string) (data : Value) : M unit :=
  (if negb (truthy data) then ret ()
   else
     d ← as_dict data;
     let room := dict_get d "room" in
     let target := dict_get d "target" in
     let accepted := VBool (truthy (dict_get d "accepted")) in
     let payload := dict_get d "payload" in
     let offer_payload := dict_get d "offer" in
     if negb (truthy room) || negb (truthy target) then ret ()
     else
       sender_name ← gets (λ st, display_name st sid);
       emit "offer-response"
            (VDict [("from", VStr sid); ("name", sender_name);
                    ("accepted", accepted); ("payload", payload);
                    ("offer", offer_payload)])
            (ToSid target))%M.

(** The inbound events of the transport. *)
Inductive Event :=
| Connect (sid : string)
| Disconnect (sid : string)
| Join (sid : string) (data : Value)
| Leave (sid : string) (data : Value)
| Rename (sid : string) (data : Value)
| ListPeers (sid : string) (data : Value)
| Signal (sid : string) (data : Value)
| Offer (sid : string) (data : Value)
| OfferResponse (sid : string) (data : Value).

Section Server.

(** Python's [str] on a value, used by [rename] alone; on a string it is
    the identity, and nothing below depends on what it prints otherwise. *)
Variable py_str : Value → string.

(** Line 79. [info] is the dict held by [peer_meta]: the assignment to
    [info["name"]] updates the registry entry in place. *)
Definition rename (sid : string) (data : Value) : M unit :=
  (d ← as_dict (py_or data (VDict []));
   let name := dict_get d "name" in
   if negb (truthy name) then ret ()
   else
     info ← meta_get sid;
     match info with
     | None => ret ()
     | Some info =>
         meta_set sid (mkMeta (VStr (py_str name)) (m_room info));;
         let room := m_room info in
         if truthy room then broadcast_peer_list room else ret ()
     end)%M.

Definition handle (ev : Event) : M unit :=
  match ev with
  | Connect sid => connect sid
  | Disconnect sid => disconnect sid
  | Join sid data => join sid data
  | Leave sid data => leave sid data
  | Rename sid data => rename sid data
  | ListPeers sid data => list_peers sid data
  | Signal sid data => signal sid data
  | Offer sid data => offer sid data
  | OfferResponse sid data => offer_response sid data
  end.

(** The state after one event; an exception ends the handler, the server
    goes on with what the handler had done so far. *)
Definition step (st : State) (ev : Event) : State := res_st (handle ev st).

Definition run (evs : list Event) (st : State) : State := fold_left step evs st.

Inductive reachable : State → Prop :=
| reachable_init : reachable init
| reachable_step st ev : reachable st → reachable (step st ev).

End Server.

(** ** Vocabulary of the properties *)

(** An instance of [py_str] for the closed examples, which rename to
    strings only: Python's [str] on a string is the string itself. It is
    right on [None] and the booleans too, and is not meant for numbers,
    lists and dicts. *)
Definition str_of (v : Value) : string :=
  match v with
  | VStr s => s
  | VNone => "None"
  | VBool true => "True"
  | VBool false => "False"
  | _ => ""
  end.

(** [key in d] *)
Fixpoint has_key (d : list (string * Value)) (key : string) : bool :=
  match d with
  | [] => false
  | (k, _) :: d' => String.eqb k key || has_key d' key
  end.





(** The registry-to-index invariant: a peer whose registry entry records
    room [R] is in the member set of [R]. *)
Definition registry_in_index (st : State) : Prop :=
  ∀ sid m, peer_meta st !! sid = Some m →
    ∃ k, hash_key (m_room m) = Some k ∧ sid ∈ members st k.

(** The same, for the rooms a value can equal: a peer whose registry entry
    records room [R] is in the member set of [R] unless [R] is NaN. *)
Definition registry_in_index_unless_nan (st : State) : Prop :=
  ∀ sid m, peer_meta st !! sid = Some m →
    ∃ k, hash_key (m_room m) = Some k ∧ (k ≠ KNaN → sid ∈ members st k).

(** A call that delivers to one connection. *)
Definition to_one (target : Value) (c : Call) : Prop :=
  ∃ event payload, c = Emit event payload (ToSid target).

(** The join and leave requests of one peer. *)
Inductive PeerOp :=
| OpJoin (data : Value)
| OpLeave (data : Value).

Definition op_event (sid : string) (op : PeerOp) : Event :=
  match op with
  | OpJoin data => Join sid data
  | OpLeave data => Leave sid data
  end.

(** The room key of a join or leave that gets through: the payload is
    false or a dict, and its room is true and hashable. *)
Definition request_key (data : Value) : option HKey :=
  match py_or data (VDict []) with
  | VDict d =>
      let room := dict_get d "room" in
      if truthy room then hash_key room else None
  | _ => None
  end.

(** A leave whose room is NaN. *)
Definition nan_leave (ev : Event) : Prop :=
  ∃ sid data, ev = Leave sid data ∧ request_key data = Some KNaN.

(** The rooms a peer has joined and not left since. *)
Definition track_joined (J : gset HKey) (op : PeerOp) : gset HKey :=
  match op with
  | OpJoin data =>
      match request_key data with Some k => J ∪ {[k]} | None => J end
  | OpLeave data =>
      match request_key data with Some k => J ∖ {[k]} | None => J end
  end.

Definition joined_rooms (ops : list PeerOp) : gset HKey :=
  fold_left track_joined ops ∅.

(** The room of the last join that got through. *)
Definition track_last (l : option HKey) (op : PeerOp) : option HKey :=
  match op with
  | OpJoin data =>
      match request_key data with Some k => Some k | None => l end
  | OpLeave _ => l
  end.

Definition last_join (ops : list PeerOp) : option HKey :=
  fold_left track_last ops None.

(** Every join is issued while the peer is in no other room ([J] holds the
    rooms the peer is in before [ops]). *)
Fixpoint one_room_at_a_time (J : gset HKey) (ops : list PeerOp) : bool :=
  match ops with
  | [] => true
  | op :: ops' =>
      match op with
      | OpJoin data =>
          match request_key data with
          | Some k => bool_decide (J ⊆ {[k]})
          | None => true
          end
      | OpLeave _ => true
      end && one_room_at_a_time (track_joined J op) ops'
  end.

(** The peer is unknown to the registry and to the index. *)
Definition fresh_peer (st : State) (sid : string) : Prop :=
  peer_meta st !! sid = None ∧ ∀ k, sid ∉ members st k.

Section Claims.

Variable py_str : Value → string.

(** Membership after the join and leave requests [ops] of peer [sid], as
    the specification words it: at most one room, the room of the last
    join that got through, no duplicates. *)
Definition single_room_after (sid : string) (ops : list PeerOp) (st0 : State) : Prop :=
  let st := run py_str (op_event sid <$> ops) st0 in
  (∀ k k', sid ∈ members st k → sid ∈ members st k' → k = k') ∧
  (∀ k, sid ∈ members st k → last_join ops = Some k) ∧
  (∀ k, NoDup (elements (members st k))).

End Claims.

(** The peer list of room [R] (of key [k]) as the specification words it:
    as long as the member set, names resolved or falling back to the id,
    and every listed peer's registry room is [R]. *)
Definition peer_list_as_specified (st : State) (R : Value) (k : HKey) : Prop :=
  ∃ peers,
    res_out (broadcast_peer_list R st) =
      [Emit "peer-list" (VDict [("peers", VList peers)]) (ToRoom R None)] ∧
    length peers = size (members st k) ∧
    ∀ e, e ∈ peers →
      ∃ sid, sid ∈ members st k ∧
             e = VDict [("sid", VStr sid); ("name", display_name st sid)] ∧
             ∀ m, peer_meta st !! sid = Some m → m_room m = R.

(** [leave] as the specification words it, for a room of key [k]: the peer
    leaves the member set, and a registry entry that records this room
    loses its room field and nothing else. *)
Definition leave_as_specified (st : State) (sid : string) (data : Value) (k : HKey) : Prop :=
  let st' := res_st (leave sid data st) in
  members st' k = members st k ∖ {[sid]} ∧
  (m_name <$> peer_meta st' !! sid) = (m_name <$> peer_meta st !! sid) ∧
  ∀ m, peer_meta st !! sid = Some m →
       peer_meta st' !! sid =
         Some (if py_eq_key (m_room m) k then mkMeta (m_name m) VNone else m).



(** Documents of the closed examples. *)
Definition room_doc (room : string) : Value := VDict [("room", VStr room)].

Definition nan_doc : Value := VDict [("room", VFloat S754_nan)].

Definition join_doc (room name : string) : Value :=
  VDict [("room", VStr room); ("name", VStr name)].

(** The connection an event comes from. *)
Definition sender (ev : Event) : string :=
  match ev with
  | Connect sid | Disconnect sid => sid
  | Join sid _ | Leave sid _ | Rename sid _ | ListPeers sid _
  | Signal sid _ | Offer sid _ | OfferResponse sid _ => sid
  end.

(** A call that sends an event, as opposed to a change of transport group. *)
Definition is_emit (c : Call) : bool :=
  match c with
  | Emit _ _ _ => true
  | EnterRoom _ _ | LeaveRoom _ _ => false
  end.

(** Every registry entry records a room that is true and hashable. *)
Definition registry_rooms_ok (st : State) : Prop :=
  ∀ sid m, peer_meta st !! sid = Some m →
    truthy (m_room m) = true ∧ is_Some (hash_key (m_room m)).

(** Two states with the same registry and the same member sets; the index
    of one may hold empty entries that the other lacks. *)
Definition same_presence (st st' : State) : Prop :=
  peer_meta st' = peer_meta st ∧ ∀ k, members st' k = members st k.

(** [(data or {})] as a receiver of [.get]: the dict the handler reads, or
    the [AttributeError] of a true value that is not a dict. *)
Definition document (data : Value) : Exn + list (string * Value) :=
  if truthy data then
    match data with
    | VDict d => inr d
    | _ => inl AttributeError
    end
  else inr [].

(** The exception of a room used as a key of [rooms]. *)
Definition room_exn (d : list (string * Value)) : option Exn :=
  let room := dict_get d "room" in
  if truthy room then
    match hash_key room with
    | Some _ => None
    | None => Some TypeError
    end
  else None.

(** The exception an event raises, read off its payload alone. *)
Definition expected_exn (ev : Event) : option Exn :=
  match ev with
  | Connect _ | Disconnect _ => None
  | Join _ data | Leave _ data | ListPeers _ data =>
      match document data with
      | inl e => Some e
      | inr d => room_exn d
      end
  | Rename _ data | Signal _ data | Offer _ data | OfferResponse _ data =>
      match document data with
      | inl e => Some e
      | inr _ => None
      end
  end.

(** The join or leave request of peer [sid] that an event is, if any. *)
Definition own_op (sid : string) (ev : Event) : option PeerOp :=
  match ev with
  | Join s data => if decide (s = sid) then Some (OpJoin data) else None
  | Leave s data => if decide (s = sid) then Some (OpLeave data) else None
  | _ => None
  end.

(** The states the handlers produce. *)
Definition after_join (st : State) (sid : string) (k : HKey) (name room : Value) : State :=
  mkState (<[k := members st k ∪ {[sid]}]> (rooms st))
          (<[sid := mkMeta name room]> (peer_meta st)).

Definition after_leave (st : State) (sid : string) (k : HKey) : State :=
  mkState (<[k := members st k ∖ {[sid]}]> (rooms st))
          (match peer_meta st !! sid with
           | Some m => if py_eq_key (m_room m) k then delete sid (peer_meta st)
                       else peer_meta st
           | None => peer_meta st
           end).

Definition after_disconnect (st : State) (sid : string) (k : HKey) : State :=
  mkState (<[k := members st k ∖ {[sid]}]> (rooms st)) (delete sid (peer_meta st)).

Definition after_rename (st : State) (sid : string) (name room : Value) : State :=
  mkState (rooms st) (<[sid := mkMeta name room]> (peer_meta st)).

(** The call made by [broadcast_peer_list] for a room of key [k]. *)
Definition peer_list_call (st : State) (k : HKey) (room : Value) : Call :=
  Emit "peer-list" (VDict [("peers", VList (peer_list st k))]) (ToRoom room None).

(** States of the closed examples: A alone in the lobby, then A and B. *)
Definition st_A : State := res_st (join "A" (join_doc "lobby" "Alice") init).

Definition st_AB : State := res_st (join "B" (join_doc "lobby" "Bob") st_A).

(** Peer p joined room NaN and left it. *)
Definition st_nan : State :=
  run str_of [Join "p" nan_doc; Leave "p" nan_doc] init.

(** Two peer lists with the same entries, in any order. The order of a
    peer list is the iteration order of a Python set, which depends on how
    the set came about. *)
Definition payload_agree (p1 p2 : Value) : Prop :=
  p1 = p2 ∨
  ∃ l1 l2, p1 = VDict [("peers", VList l1)] ∧ p2 = VDict [("peers", VList l2)] ∧ l1 ≡ₚ l2.

(** Two calls that differ at most in the order of a peer list. *)
Definition call_agree (c1 c2 : Call) : Prop :=
  match c1, c2 with
  | Emit ev1 p1 d1, Emit ev2 p2 d2 => ev1 = ev2 ∧ d1 = d2 ∧ payload_agree p1 p2
  | _, _ => c1 = c2
  end.

(** What the index and the registry hold of peer [sid] when [J] is the set
    of rooms it is in and [l] the room of its last join. *)
Definition tracks (st : State) (sid : string) (J : gset HKey) (l : option HKey) : Prop :=
  (∀ k, sid ∈ members st k ↔ k ∈ J) ∧
  (∀ m, peer_meta st !! sid = Some m →
        hash_key (m_room m) = l ∧ ∃ k, l = Some k ∧ (k ≠ KNaN → k ∈ J)).

(** * Properties *)

(** ** Values, documents and the monad *)

Lemma has_key_false_get d key : has_key d key = false → dict_get d key = VNone.
Proof.
  induction d as [|[k v] d IH]; simpl; [done|].
  destruct (String.eqb k key); simpl; [done|auto].
Qed.

Lemma truthy_get_nonempty d key : truthy (dict_get d key) = true → truthy (VDict d) = true.
Proof. by destruct d. Qed.

Lemma truthy_not_empty v : truthy v = true → v ≠ VStr "".
Proof. by intros H ->. Qed.

Lemma py_or_dict d :
  ∃ d0, py_or (VDict d) (VDict []) = VDict d0 ∧ ∀ key, dict_get d0 key = dict_get d key.
Proof. destruct d; simpl; eauto. Qed.

Lemma request_key_dict d :
  truthy (dict_get d "room") = true → request_key (VDict d) = hash_key (dict_get d "room").
Proof.
  intros Hr. unfold request_key, py_or. rewrite (truthy_get_nonempty _ _ Hr).
  by rewrite Hr.
Qed.

Lemma py_eq_key_true v k :
  py_eq_key v k = true ↔ hash_key v = Some k ∧ k ≠ KNaN.
Proof.
  unfold py_eq_key. rewrite andb_true_iff, negb_true_iff.
  by rewrite bool_decide_eq_true, bool_decide_eq_false.
Qed.

Lemma py_eq_key_false v k :
  py_eq_key v k = false ↔ hash_key v ≠ Some k ∨ k = KNaN.
Proof.
  unfold py_eq_key. rewrite andb_false_iff, negb_false_iff.
  by rewrite bool_decide_eq_false, bool_decide_eq_true.
Qed.

Lemma state_eta st : mkState (rooms st) (peer_meta st) = st.
Proof. by destruct st. Qed.

Lemma members_unfold st k : members st k = default ∅ (rooms st !! k).
Proof. done. Qed.

Lemma members_insert rs pm k X k' :
  members (mkState (<[k := X]> rs) pm) k' =
    if decide (k = k') then X else default ∅ (rs !! k').
Proof.
  unfold members. simpl. rewrite lookup_insert. by destruct (decide (k = k')).
Qed.

Lemma fresh_peer_init sid : fresh_peer init sid.
Proof.
  split; [apply lookup_empty|]. intros k. unfold members. simpl.
  rewrite lookup_empty. apply not_elem_of_empty.
Qed.

(** The monad, one step at a time. *)

Lemma bind_ret {A B} (a : A) (f : A → M B) st : bind (ret a) f st = f a st.
Proof. unfold bind, ret. simpl. by destruct (f a st). Qed.

Lemma bind_gets {A B} (g : State → A) (f : A → M B) st :
  bind (gets g) f st = f (g st) st.
Proof. unfold bind, gets. simpl. by destruct (f (g st) st). Qed.

Lemma bind_modify {B} (g : State → State) (f : () → M B) st :
  bind (modify g) f st = f () (g st).
Proof. unfold bind, modify. simpl. by destruct (f () (g st)). Qed.

Lemma bind_transport {B} (c : Call) (f : () → M B) st :
  bind (transport c) f st =
    mkRes (res_st (f () st)) (c :: res_out (f () st)) (res_val (f () st)).
Proof. done. Qed.

Lemma bind_meta_pop {B} sid (f : option Meta → M B) st :
  bind (meta_pop sid) f st =
    f (peer_meta st !! sid) (mkState (rooms st) (delete sid (peer_meta st))).
Proof. unfold bind, meta_pop. simpl. by destruct (f _ _). Qed.

Lemma bind_hash_of {B} v k (f : HKey → M B) st :
  hash_key v = Some k → bind (hash_of v) f st = f k st.
Proof. intros Hk. unfold hash_of. rewrite Hk. apply bind_ret. Qed.

Lemma bind_hash_of_raise {B} v (f : HKey → M B) st :
  hash_key v = None → bind (hash_of v) f st = mkRes st [] (inl TypeError).
Proof. intros Hk. unfold hash_of. by rewrite Hk. Qed.

Lemma bind_assoc {A B C} (m : M A) (f : A → M B) (g : B → M C) st :
  bind (bind m f) g st = bind m (λ a, bind (f a) g) st.
Proof.
  unfold bind. destruct (m st) as [s o [e|a]]; simpl; [done|].
  destruct (f a s) as [s' o' [e'|b]]; simpl; [done|]. by rewrite app_assoc.
Qed.

(** [(data or {}).get]: the document read by join, leave, rename and
    list_peers. *)
Lemma bind_document {B} data (f : list (string * Value) → M B) st :
  bind (as_dict (py_or data (VDict []))) f st =
    match document data with
    | inl e => mkRes st [] (inl e)
    | inr d => f d st
    end.
Proof.
  unfold document, py_or. destruct (truthy data); [|apply bind_ret].
  destruct data; try done. apply bind_ret.
Qed.

(** [if not data: return], then [data.get]: the document read by signal,
    offer and offer_response, whose bodies drop the empty document. *)
Lemma guard_document data (f : list (string * Value) → M ()) st :
  (if negb (truthy data) then ret () else bind (as_dict data) f) st =
    match document data with
    | inl e => mkRes st [] (inl e)
    | inr d => if truthy data then f d st else mkRes st [] (inr ())
    end.
Proof.
  unfold document. destruct (truthy data); cbn [negb]; [|done].
  destruct data; try done. apply bind_ret.
Qed.

Lemma document_dict d : truthy (VDict d) = true → document (VDict d) = inr d.
Proof. intros H. unfold document. by rewrite H. Qed.

Lemma document_falsy data d :
  document data = inr d → truthy data = false → d = [].
Proof. unfold document. intros H Hd. rewrite Hd in H. congruence. Qed.

Lemma document_truthy data d :
  document data = inr d → truthy data = true → data = VDict d.
Proof.
  unfold document. intros H Hd. rewrite Hd in H. destruct data; congruence.
Qed.

Lemma document_room d key : truthy (dict_get d key) = true → document (VDict d) = inr d.
Proof. intros H. apply document_dict. by apply (truthy_get_nonempty _ key). Qed.

Lemma document_dict_get d : ∃ d0, document (VDict d) = inr d0 ∧ ∀ key, dict_get d0 key = dict_get d key.
Proof. destruct d; [by exists []|]. eexists. by split. Qed.

Lemma request_key_document data :
  request_key data =
    match document data with
    | inl _ => None
    | inr d => if truthy (dict_get d "room") then hash_key (dict_get d "room") else None
    end.
Proof.
  unfold request_key, document, py_or. destruct (truthy data); [|done].
  by destruct data.
Qed.

(** ** Closed forms of the handlers *)

Lemma broadcast_peer_list_eval room st :
  broadcast_peer_list room st =
    match hash_key room with
    | Some k => mkRes st [peer_list_call st k room] (inr ())
    | None => mkRes st [] (inl TypeError)
    end.
Proof.
  unfold broadcast_peer_list. destruct (hash_key room) as [k|] eqn:Hk.
  - rewrite (bind_hash_of _ k) by done. by rewrite bind_gets.
  - by rewrite bind_hash_of_raise.
Qed.

Lemma join_eval sid data st :
  join sid data st =
    match document data with
    | inl e => mkRes st [] (inl e)
    | inr d =>
        let room := dict_get d "room" in
        let name := py_or (dict_get d "name") (VStr sid) in
        if truthy room then
          match hash_key room with
          | Some k =>
              let st' := after_join st sid k name room in
              mkRes st'
                [EnterRoom sid room;
                 Emit "peer-joined" (sid_payload sid) (ToRoom room (Some sid));
                 peer_list_call st' k room]
                (inr ())
          | None => mkRes st [EnterRoom sid room] (inl TypeError)
          end
        else mkRes st [] (inr ())
    end.
Proof.
  unfold join. rewrite bind_document. destruct (document data) as [e|d]; [done|].
  cbv zeta. destruct (truthy (dict_get d "room")); cbn [negb]; [|done].
  rewrite bind_transport. destruct (hash_key (dict_get d "room")) as [k|] eqn:Hk.
  - rewrite (bind_hash_of _ k) by done. unfold rooms_add, meta_set, emit.
    rewrite !bind_modify, bind_transport, broadcast_peer_list_eval, Hk. done.
  - by rewrite bind_hash_of_raise.
Qed.

Lemma leave_eval sid data st :
  leave sid data st =
    match document data with
    | inl e => mkRes st [] (inl e)
    | inr d =>
        let room := dict_get d "room" in
        if truthy room then
          match hash_key room with
          | Some k =>
              let st' := after_leave st sid k in
              mkRes st'
                [LeaveRoom sid room;
                 Emit "peer-left" (sid_payload sid) (ToRoom room None);
                 peer_list_call st' k room]
                (inr ())
          | None => mkRes st [LeaveRoom sid room] (inl TypeError)
          end
        else mkRes st [] (inr ())
    end.
Proof.
  unfold leave. rewrite bind_document. destruct (document data) as [e|d]; [done|].
  cbv zeta. destruct (truthy (dict_get d "room")); cbn [negb]; [|done].
  rewrite bind_transport. destruct (hash_key (dict_get d "room")) as [k|] eqn:Hk.
  - rewrite (bind_hash_of _ k) by done. unfold rooms_discard, meta_get, emit, after_leave.
    rewrite bind_modify, bind_gets. cbn [peer_meta].
    destruct (peer_meta st !! sid) as [m|] eqn:Hm;
      [destruct (py_eq_key (m_room m) k); [rewrite bind_assoc, bind_meta_pop|]|];
      rewrite bind_ret, bind_transport, broadcast_peer_list_eval, Hk; done.
  - by rewrite bind_hash_of_raise.
Qed.

Lemma disconnect_eval sid st :
  disconnect sid st =
    match peer_meta st !! sid with
    | None => mkRes st [] (inr ())
    | Some m =>
        let gone := mkState (rooms st) (delete sid (peer_meta st)) in
        if truthy (m_room m) then
          match hash_key (m_room m) with
          | Some k =>
              let st' := after_disconnect st sid k in
              mkRes st'
                [Emit "peer-left" (sid_payload sid) (ToRoom (m_room m) None);
                 peer_list_call st' k (m_room m)]
                (inr ())
          | None => mkRes gone [] (inl TypeError)
          end
        else mkRes gone [] (inr ())
    end.
Proof.
  unfold disconnect. rewrite bind_meta_pop.
  destruct (peer_meta st !! sid) as [m|] eqn:Hm.
  - cbv zeta. destruct (truthy (m_room m)); [|done].
    destruct (hash_key (m_room m)) as [k|] eqn:Hk.
    + rewrite (bind_hash_of _ k) by done. unfold rooms_discard, emit.
      rewrite bind_modify, bind_transport, broadcast_peer_list_eval, Hk. done.
    + by rewrite bind_hash_of_raise.
  - rewrite delete_id by done. by rewrite state_eta.
Qed.

Lemma rename_eval py_str sid data st :
  rename py_str sid data st =
    match document data with
    | inl e => mkRes st [] (inl e)
    | inr d =>
        let name := dict_get d "name" in
        if truthy name then
          match peer_meta st !! sid with
          | None => mkRes st [] (inr ())
          | Some info =>
              let st' := after_rename st sid (VStr (py_str name)) (m_room info) in
              if truthy (m_room info) then
                match hash_key (m_room info) with
                | Some k => mkRes st' [peer_list_call st' k (m_room info)] (inr ())
                | None => mkRes st' [] (inl TypeError)
                end
              else mkRes st' [] (inr ())
          end
        else mkRes st [] (inr ())
    end.
Proof.
  unfold rename. rewrite bind_document. destruct (document data) as [e|d]; [done|].
  cbv zeta. destruct (truthy (dict_get d "name")); cbn [negb]; [|done].
  unfold meta_get, meta_set. rewrite bind_gets.
  destruct (peer_meta st !! sid) as [info|]; [|done].
  rewrite bind_modify. destruct (truthy (m_room info)); [|done].
  by rewrite broadcast_peer_list_eval.
Qed.

Lemma list_peers_eval sid data st :
  list_peers sid data st =
    match document data with
    | inl e => mkRes st [] (inl e)
    | inr d =>
        let room := dict_get d "room" in
        if truthy room then
          match hash_key room with
          | Some k => mkRes st [peer_list_call st k room] (inr ())
          | None => mkRes st [] (inl TypeError)
          end
        else mkRes st [] (inr ())
    end.
Proof.
  unfold list_peers. rewrite bind_document. destruct (document data) as [e|d]; [done|].
  cbv zeta. destruct (truthy (dict_get d "room")); cbn [negb]; [|done].
  apply broadcast_peer_list_eval.
Qed.

Lemma signal_eval sid data st :
  signal sid data st =
    match document data with
    | inl e => mkRes st [] (inl e)
    | inr d =>
        if truthy (dict_get d "room") then
          mkRes st
            [Emit "signal" (VDict [("from", VStr sid); ("payload", dict_get d "payload")])
               (ToRoom (dict_get d "room") (Some sid))]
            (inr ())
        else mkRes st [] (inr ())
    end.
Proof.
  unfold signal. rewrite guard_document.
  destruct (document data) as [e|d] eqn:Hdoc; [done|].
  destruct (truthy data) eqn:Hd.
  - cbv zeta. by destruct (truthy (dict_get d "room")).
  - by rewrite (document_falsy _ _ Hdoc Hd).
Qed.

Lemma offer_eval sid data st :
  offer sid data st =
    match document data with
    | inl e => mkRes st [] (inl e)
    | inr d =>
        if truthy (dict_get d "room") && truthy (dict_get d "target")
           && negb (is_none (dict_get d "payload")) then
          mkRes st
            [Emit "offer"
               (VDict [("from", VStr sid); ("name", display_name st sid);
                       ("payload", dict_get d "payload")])
               (ToSid (dict_get d "target"))]
            (inr ())
        else mkRes st [] (inr ())
    end.
Proof.
  unfold offer. rewrite guard_document.
  destruct (document data) as [e|d] eqn:Hdoc; [done|].
  destruct (truthy data) eqn:Hd.
  - cbv zeta. destruct (truthy (dict_get d "room")), (truthy (dict_get d "target")),
      (is_none (dict_get d "payload")); cbn [negb orb andb]; rewrite ?bind_gets; done.
  - by rewrite (document_falsy _ _ Hdoc Hd).
Qed.

Lemma offer_response_eval sid data st :
  offer_response sid data st =
    match document data with
    | inl e => mkRes st [] (inl e)
    | inr d =>
        if truthy (dict_get d "room") && truthy (dict_get d "target") then
          mkRes st
            [Emit "offer-response"
               (VDict [("from", VStr sid); ("name", display_name st sid);
                       ("accepted", VBool (truthy (dict_get d "accepted")));
                       ("payload", dict_get d "payload");
                       ("offer", dict_get d "offer")])
               (ToSid (dict_get d "target"))]
            (inr ())
        else mkRes st [] (inr ())
    end.
Proof.
  unfold offer_response. rewrite guard_document.
  destruct (document data) as [e|d] eqn:Hdoc; [done|].
  destruct (truthy data) eqn:Hd.
  - cbv zeta. destruct (truthy (dict_get d "room")), (truthy (dict_get d "target"));
      cbn [negb orb andb]; rewrite ?bind_gets; done.
  - by rewrite (document_falsy _ _ Hdoc Hd).
Qed.

(** ** What each handler does to the state *)

Lemma broadcast_peer_list_st room st : res_st (broadcast_peer_list room st) = st.
Proof. rewrite broadcast_peer_list_eval. by destruct (hash_key room). Qed.

Lemma broadcast_peer_list_ok room k st :
  hash_key room = Some k →
  broadcast_peer_list room st =
    mkRes st [Emit "peer-list" (VDict [("peers", VList (peer_list st k))]) (ToRoom room None)]
          (inr ()).
Proof. intros Hk. by rewrite broadcast_peer_list_eval, Hk. Qed.

Lemma disconnect_st sid st :
  ∃ rs, res_st (disconnect sid st) = mkState rs (delete sid (peer_meta st)) ∧
        (rs = rooms st ∨ ∃ k, rs = <[k := members st k ∖ {[sid]}]> (rooms st)).
Proof.
  rewrite disconnect_eval. destruct (peer_meta st !! sid) as [m|] eqn:Hm.
  - cbv zeta. destruct (truthy (m_room m)); [|eauto].
    destruct (hash_key (m_room m)) as [k|]; eauto.
  - exists (rooms st). rewrite delete_id by done. by rewrite state_eta; auto.
Qed.

Lemma disconnect_gone sid st : peer_meta (res_st (disconnect sid st)) !! sid = None.
Proof.
  destruct (disconnect_st sid st) as (rs & -> & _). apply lookup_delete_eq.
Qed.

Lemma disconnect_absent sid st :
  peer_meta st !! sid = None → disconnect sid st = mkRes st [] (inr ()).
Proof. intros Hn. by rewrite disconnect_eval, Hn. Qed.

(** A join that gets through. *)
Lemma join_accepts sid d k st :
  let room := dict_get d "room" in
  let name := py_or (dict_get d "name") (VStr sid) in
  truthy room = true → hash_key room = Some k →
  let st' := mkState (<[k := members st k ∪ {[sid]}]> (rooms st))
                     (<[sid := mkMeta name room]> (peer_meta st)) in
  join sid (VDict d) st =
    mkRes st'
      [EnterRoom sid room;
       Emit "peer-joined" (sid_payload sid) (ToRoom room (Some sid));
       Emit "peer-list" (VDict [("peers", VList (peer_list st' k))]) (ToRoom room None)]
      (inr ()).
Proof.
  intros room name Hr Hk st'. subst room name st'.
  rewrite join_eval, (document_room _ _ Hr). cbv zeta. by rewrite Hr, Hk.
Qed.

Lemma join_request sid data st :
  match request_key data with
  | Some k =>
      ∃ m, hash_key (m_room m) = Some k ∧
           res_st (join sid data st) =
             mkState (<[k := members st k ∪ {[sid]}]> (rooms st))
                     (<[sid := m]> (peer_meta st))
  | None => res_st (join sid data st) = st
  end.
Proof.
  rewrite join_eval, request_key_document. destruct (document data) as [e|d]; [done|].
  cbv zeta. destruct (truthy (dict_get d "room")); [|done].
  destruct (hash_key (dict_get d "room")) as [k|] eqn:Hk; [|done].
  eexists (mkMeta _ _). by split; [exact Hk|].
Qed.

Lemma leave_request sid data st :
  match request_key data with
  | Some k =>
      res_st (leave sid data st) =
        mkState (<[k := members st k ∖ {[sid]}]> (rooms st))
                (match peer_meta st !! sid with
                 | Some m => if py_eq_key (m_room m) k then delete sid (peer_meta st)
                             else peer_meta st
                 | None => peer_meta st
                 end)
  | None => res_st (leave sid data st) = st
  end.
Proof.
  rewrite leave_eval, request_key_document. destruct (document data) as [e|d]; [done|].
  cbv zeta. destruct (truthy (dict_get d "room")); [|done].
  by destruct (hash_key (dict_get d "room")) as [k|].
Qed.

Lemma leave_accepts sid d k st :
  truthy (dict_get d "room") = true → hash_key (dict_get d "room") = Some k →
  leave sid (VDict d) st =
    mkRes (after_leave st sid k)
      [LeaveRoom sid (dict_get d "room");
       Emit "peer-left" (sid_payload sid) (ToRoom (dict_get d "room") None);
       peer_list_call (after_leave st sid k) k (dict_get d "room")]
      (inr ()).
Proof.
  intros Hr Hk. rewrite leave_eval, (document_room _ _ Hr). cbv zeta. by rewrite Hr, Hk.
Qed.

Lemma rename_st py_str sid data st :
  res_st (rename py_str sid data st) = st ∨
  ∃ info name, peer_meta st !! sid = Some info ∧
     res_st (rename py_str sid data st) =
       mkState (rooms st) (<[sid := mkMeta name (m_room info)]> (peer_meta st)).
Proof.
  rewrite rename_eval. destruct (document data) as [e|d]; [by left|]. cbv zeta.
  destruct (truthy (dict_get d "name")); [|by left].
  destruct (peer_meta st !! sid) as [info|] eqn:Hi; [|by left].
  right. exists info, (VStr (py_str (dict_get d "name"))). split; [done|].
  destruct (truthy (m_room info)); [|done]. by destruct (hash_key (m_room info)).
Qed.

Lemma list_peers_st sid data st : res_st (list_peers sid data st) = st.
Proof.
  rewrite list_peers_eval. destruct (document data) as [e|d]; [done|]. cbv zeta.
  destruct (truthy (dict_get d "room")); [|done]. by destruct (hash_key _).
Qed.

Lemma signal_st sid data st : res_st (signal sid data st) = st.
Proof.
  rewrite signal_eval. destruct (document data) as [e|d]; [done|].
  by destruct (truthy (dict_get d "room")).
Qed.

Lemma offer_st sid data st : res_st (offer sid data st) = st.
Proof.
  rewrite offer_eval. destruct (document data) as [e|d]; [done|]. by destruct (_ && _).
Qed.

Lemma offer_response_st sid data st : res_st (offer_response sid data st) = st.
Proof.
  rewrite offer_response_eval. destruct (document data) as [e|d]; [done|].
  by destruct (_ && _).
Qed.

Lemma offer_accepts sid d st :
  truthy (dict_get d "room") = true →
  truthy (dict_get d "target") = true →
  is_none (dict_get d "payload") = false →
  offer sid (VDict d) st =
    mkRes st
      [Emit "offer"
         (VDict [("from", VStr sid); ("name", display_name st sid);
                 ("payload", dict_get d "payload")])
         (ToSid (dict_get d "target"))]
      (inr ()).
Proof.
  intros Hr Ht Hp. rewrite offer_eval, (document_room _ _ Hr). by rewrite Hr, Ht, Hp.
Qed.

Lemma offer_rejects sid d st :
  truthy (dict_get d "room") = false ∨ truthy (dict_get d "target") = false ∨
    is_none (dict_get d "payload") = true →
  offer sid (VDict d) st = mkRes st [] (inr ()).
Proof.
  intros H. rewrite offer_eval. destruct (document_dict_get d) as (d0 & -> & H0).
  rewrite !H0. destruct H as [-> | [-> | ->]]; by rewrite ?andb_false_r.
Qed.

Lemma offer_response_accepts sid d st :
  truthy (dict_get d "room") = true →
  truthy (dict_get d "target") = true →
  offer_response sid (VDict d) st =
    mkRes st
      [Emit "offer-response"
         (VDict [("from", VStr sid); ("name", display_name st sid);
                 ("accepted", VBool (truthy (dict_get d "accepted")));
                 ("payload", dict_get d "payload");
                 ("offer", dict_get d "offer")])
         (ToSid (dict_get d "target"))]
      (inr ()).
Proof.
  intros Hr Ht. rewrite offer_response_eval, (document_room _ _ Hr). by rewrite Hr, Ht.
Qed.

(** ** What an event can change *)

Lemma step_state_cases py_str st ev :
  let sid := sender ev in
  step py_str st ev = st ∨
  (∃ k, rooms (step py_str st ev) = rooms st ∨
        rooms (step py_str st ev) = <[k := members st k ∖ {[sid]}]> (rooms st) ∨
        (rooms (step py_str st ev) = <[k := members st k ∪ {[sid]}]> (rooms st) ∧
         ∃ data, ev = Join sid data ∧ request_key data = Some k)) ∧
  (peer_meta (step py_str st ev) = peer_meta st ∨
   peer_meta (step py_str st ev) = delete sid (peer_meta st) ∨
   ∃ m, peer_meta (step py_str st ev) = <[sid := m]> (peer_meta st) ∧
        ((∃ m0, peer_meta st !! sid = Some m0 ∧ m_room m0 = m_room m) ∨
         (∃ data k, ev = Join sid data ∧ request_key data = Some k ∧
                    truthy (m_room m) = true ∧ hash_key (m_room m) = Some k))).
Proof.
  unfold step.
  destruct ev as [s|s|s data|s data|s data|s data|s data|s data|s data]; cbn [handle sender].
  - by left.
  - right. destruct (disconnect_st s st) as (rs & -> & Hrs). simpl. split; [|auto].
    destruct Hrs as [-> | [k ->]]; [exists KNone|exists k]; auto.
  - rewrite join_eval. pose proof (request_key_document data) as Hreq.
    destruct (document data) as [e|d]; [by left|]. cbv zeta in *.
    destruct (truthy (dict_get d "room")) eqn:Hr; [|by left].
    destruct (hash_key (dict_get d "room")) as [k|] eqn:Hk; [|by left].
    right. cbn [res_st after_join rooms peer_meta]. split.
    + exists k. right. right. split; [done|]. by exists data.
    + right. right. eexists. split; [done|]. right. by exists data, k.
  - rewrite leave_eval. destruct (document data) as [e|d]; [by left|]. cbv zeta.
    destruct (truthy (dict_get d "room")); [|by left].
    destruct (hash_key (dict_get d "room")) as [k|]; [|by left].
    right. cbn [res_st after_leave rooms peer_meta]. split; [exists k; auto|].
    destruct (peer_meta st !! s) as [m|]; [|auto].
    destruct (py_eq_key (m_room m) k); auto.
  - destruct (rename_st py_str s data st) as [Hst | (info & name & Hi & ->)];
      [left; by rewrite Hst|].
    right. simpl. split; [exists KNone; by left|].
    right. right. eexists. split; [done|]. left. by exists info.
  - left. by rewrite list_peers_st.
  - left. by rewrite signal_st.
  - left. by rewrite offer_st.
  - left. by rewrite offer_response_st.
Qed.

Lemma step_others_untouched py_str st ev sid' :
  sid' ≠ sender ev →
  peer_meta (step py_str st ev) !! sid' = peer_meta st !! sid' ∧
  ∀ k, sid' ∈ members (step py_str st ev) k ↔ sid' ∈ members st k.
Proof.
  intros Hne. destruct (step_state_cases py_str st ev) as [-> | [(k0 & Hrs) Hpm]]; [done|].
  split.
  - destruct Hpm as [-> | [-> | (m & -> & _)]]; [done| |].
    + by rewrite lookup_delete_ne.
    + by rewrite lookup_insert_ne.
  - intros k. unfold members.
    destruct Hrs as [-> | [-> | [-> _]]]; [done| |].
    + rewrite lookup_insert. case_decide as Hk; [subst k0|done]. simpl.
      rewrite elem_of_difference, elem_of_singleton. fold (members st k). tauto.
    + rewrite lookup_insert. case_decide as Hk; [subst k0|done]. simpl.
      rewrite elem_of_union, elem_of_singleton. fold (members st k). tauto.
Qed.

(** ** The registry-to-index invariant, handler by handler *)

Lemma registry_in_index_init : registry_in_index init.
Proof. intros sid m Hm. simpl in Hm. by rewrite lookup_empty in Hm. Qed.

Lemma registry_in_index_weaken st :
  registry_in_index st → registry_in_index_unless_nan st.
Proof.
  intros Hinv sid m Hm. destruct (Hinv _ _ Hm) as (k & Hk & Hin). by exists k.
Qed.

Lemma disconnect_keeps_members sid sid' k0 k st :
  sid' ≠ sid → sid' ∈ members st k →
  sid' ∈ members (mkState (<[k0 := members st k0 ∖ {[sid]}]> (rooms st))
                          (delete sid (peer_meta st))) k.
Proof.
  intros Hne Hin. rewrite members_insert. case_decide as Hkk; [subst k0|done].
  apply elem_of_difference. split; [done|]. by intros ?%elem_of_singleton.
Qed.

(** The invariant restricted to the rooms a value can equal is kept by
    every event. *)
Lemma step_preserves_unless_nan py_str st ev :
  registry_in_index_unless_nan st → registry_in_index_unless_nan (step py_str st ev).
Proof.
  intros Hinv. unfold step.
  destruct ev as [s|s|s data|s data|s data|s data|s data|s data|s data]; cbn [handle].
  - done.
  - destruct (disconnect_st s st) as (rs & -> & Hrs).
    intros sid' m. simpl. intros [Hne Hm]%lookup_delete_Some.
    destruct (Hinv _ _ Hm) as (k & Hk & Hin). exists k. split; [done|].
    intros Hnan. specialize (Hin Hnan).
    destruct Hrs as [-> | [k0 ->]]; [done|]. by apply disconnect_keeps_members.
  - pose proof (join_request s data st) as Hj.
    destruct (request_key data) as [k|]; [|by rewrite Hj].
    destruct Hj as (m0 & Hk & ->).
    intros sid' m. simpl. rewrite lookup_insert. case_decide as Hs.
    + intros [= <-]. subst sid'. exists k. split; [done|]. intros _.
      rewrite members_insert, decide_True by done.
      apply elem_of_union_r. by apply elem_of_singleton.
    + intros Hm. destruct (Hinv _ _ Hm) as (k' & Hk' & Hin). exists k'. split; [done|].
      intros Hnan. specialize (Hin Hnan).
      rewrite members_insert. case_decide; [subst k'|done]. by apply elem_of_union_l.
  - pose proof (leave_request s data st) as Hl.
    destruct (request_key data) as [k|]; [|by rewrite Hl].
    rewrite Hl. intros sid' m. simpl. intros Hm.
    assert (peer_meta st !! sid' = Some m ∧
            (sid' = s → hash_key (m_room m) ≠ Some k ∨ k = KNaN)) as [Hm' Hne].
    { destruct (peer_meta st !! s) as [m0|] eqn:H0.
      - destruct (py_eq_key (m_room m0) k) eqn:Heq.
        + apply lookup_delete_Some in Hm as [? ?]. done.
        + split; [done|]. intros ->. apply py_eq_key_false in Heq.
          assert (m0 = m) as -> by congruence. done.
      - split; [done|]. intros ->. congruence. }
    destruct (Hinv _ _ Hm') as (k' & Hk' & Hin). exists k'. split; [done|].
    intros Hnan. specialize (Hin Hnan).
    rewrite members_insert. case_decide as Hkk; [|done]. subst k'.
    apply elem_of_difference. split; [done|].
    intros ->%elem_of_singleton. by destruct (Hne eq_refl).
  - destruct (rename_st py_str s data st) as [-> | (info & name & Hi & ->)]; [done|].
    intros sid' m. simpl. rewrite lookup_insert. case_decide as Hs.
    + intros [= <-]. subst sid'. simpl. apply (Hinv _ _ Hi).
    + apply Hinv.
  - by rewrite list_peers_st.
  - by rewrite signal_st.
  - by rewrite offer_st.
  - by rewrite offer_response_st.
Qed.

Lemma reachable_in_index_unless_nan py_str st :
  reachable py_str st → registry_in_index_unless_nan st.
Proof.
  induction 1 as [|st ev _ IH]; [|by apply step_preserves_unless_nan].
  apply registry_in_index_weaken, registry_in_index_init.
Qed.

(** The full invariant is kept by every event but a leave of room NaN. *)
Lemma step_preserves py_str st ev :
  ¬ nan_leave ev →
  registry_in_index st → registry_in_index (step py_str st ev).
Proof.
  intros Hnl Hinv. unfold step.
  destruct ev as [s|s|s data|s data|s data|s data|s data|s data|s data]; cbn [handle].
  - done.
  - destruct (disconnect_st s st) as (rs & -> & Hrs).
    intros sid' m. simpl. intros [Hne Hm]%lookup_delete_Some.
    destruct (Hinv _ _ Hm) as (k & Hk & Hin). exists k. split; [done|].
    destruct Hrs as [-> | [k0 ->]]; [done|]. by apply disconnect_keeps_members.
  - pose proof (join_request s data st) as Hj.
    destruct (request_key data) as [k|]; [|by rewrite Hj].
    destruct Hj as (m0 & Hk & ->).
    intros sid' m. simpl. rewrite lookup_insert. case_decide as Hs.
    + intros [= <-]. subst sid'. exists k. split; [done|].
      rewrite members_insert, decide_True by done.
      apply elem_of_union_r. by apply elem_of_singleton.
    + intros Hm. destruct (Hinv _ _ Hm) as (k' & Hk' & Hin). exists k'. split; [done|].
      rewrite members_insert. case_decide; [subst k'|done]. by apply elem_of_union_l.
  - pose proof (leave_request s data st) as Hl.
    destruct (request_key data) as [k|] eqn:Hreq; [|by rewrite Hl].
    assert (Hnan : k ≠ KNaN) by (intros ->; apply Hnl; by exists s, data).
    rewrite Hl. intros sid' m. simpl. intros Hm.
    assert (peer_meta st !! sid' = Some m ∧ (sid' = s → hash_key (m_room m) ≠ Some k))
      as [Hm' Hne].
    { destruct (peer_meta st !! s) as [m0|] eqn:H0.
      - destruct (py_eq_key (m_room m0) k) eqn:Heq.
        + apply lookup_delete_Some in Hm as [? ?]. done.
        + split; [done|]. intros ->. apply py_eq_key_false in Heq as [Heq|Heq]; [|done].
          assert (m0 = m) as -> by congruence. done.
      - split; [done|]. intros ->. congruence. }
    destruct (Hinv _ _ Hm') as (k' & Hk' & Hin). exists k'. split; [done|].
    rewrite members_insert. case_decide as Hkk; [|done]. subst k'.
    apply elem_of_difference. split; [done|].
    intros ->%elem_of_singleton. by apply Hne.
  - destruct (rename_st py_str s data st) as [-> | (info & name & Hi & ->)]; [done|].
    intros sid' m. simpl. rewrite lookup_insert. case_decide as Hs.
    + intros [= <-]. subst sid'. simpl. apply (Hinv _ _ Hi).
    + apply Hinv.
  - by rewrite list_peers_st.
  - by rewrite signal_st.
  - by rewrite offer_st.
  - by rewrite offer_response_st.
Qed.

Lemma run_preserves py_str evs st :
  Forall (λ ev, ¬ nan_leave ev) evs →
  registry_in_index st → registry_in_index (run py_str evs st).
Proof.
  intros Hall. revert st. induction Hall as [|ev evs Hev _ IH]; intros st Hinv; [done|].
  cbn. apply IH. by apply step_preserves.
Qed.

Lemma registry_rooms_ok_step py_str st ev :
  registry_rooms_ok st → registry_rooms_ok (step py_str st ev).
Proof.
  intros Hok. destruct (step_state_cases py_str st ev) as [-> | [_ Hpm]]; [done|].
  intros sid m. destruct Hpm as [-> | [-> | (m1 & -> & Hm1)]].
  - apply Hok.
  - intros [_ Hm]%lookup_delete_Some. by apply (Hok sid).
  - rewrite lookup_insert. case_decide as Hs; [|apply Hok].
    intros [= <-]. destruct Hm1 as [(m0 & Hm0 & <-) | (data & k & _ & _ & Hr & Hk)].
    + by apply (Hok _ _ Hm0).
    + split; [done|]. by exists k.
Qed.

Lemma reachable_rooms_ok py_str st :
  reachable py_str st → registry_rooms_ok st.
Proof.
  induction 1 as [|st ev _ IH]; [|by apply registry_rooms_ok_step].
  intros sid m Hm. simpl in Hm. by rewrite lookup_empty in Hm.
Qed.

Lemma reachable_st_AB : reachable str_of st_AB.
Proof.
  apply (reachable_step str_of st_A (Join "B" (join_doc "lobby" "Bob"))).
  apply (reachable_step str_of init (Join "A" (join_doc "lobby" "Alice"))).
  apply reachable_init.
Qed.

Lemma not_nan_leave_join sid data : ¬ nan_leave (Join sid data).
Proof. by intros (s & d & [=] & _). Qed.

Lemma registry_in_index_st_A : registry_in_index st_A.
Proof.
  apply (step_preserves str_of init (Join "A" (join_doc "lobby" "Alice"))
           (not_nan_leave_join _ _) registry_in_index_init).
Qed.

(** ** Join and leave requests of one peer *)

Lemma fresh_tracks st sid : fresh_peer st sid → tracks st sid ∅ None.
Proof.
  intros [Hm Hk]. split.
  - intros k. split; [by intros ?%Hk | by intros ?%not_elem_of_empty].
  - intros m. congruence.
Qed.

Lemma step_tracks py_str sid op st J l :
  tracks st sid J l →
  tracks (step py_str st (op_event sid op)) sid (track_joined J op) (track_last l op).
Proof.
  intros [Hmem Hreg]. unfold step. destruct op as [data|data]; simpl.
  - pose proof (join_request sid data st) as Hj.
    destruct (request_key data) as [k|]; [|by rewrite Hj].
    destruct Hj as (m & Hk & ->). split.
    + intros k'. rewrite members_insert, elem_of_union, elem_of_singleton.
      case_decide as Hkk.
      * subst k'. rewrite elem_of_union, elem_of_singleton. tauto.
      * rewrite <-members_unfold, Hmem. split; [tauto|]. intros [?|?]; [done|congruence].
    + intros m'. simpl. rewrite lookup_insert_eq. intros [= <-].
      split; [done|]. exists k. rewrite elem_of_union, elem_of_singleton. auto.
  - pose proof (leave_request sid data st) as Hl.
    destruct (request_key data) as [k|]; [|by rewrite Hl].
    rewrite Hl. split.
    + intros k'. rewrite members_insert, elem_of_difference, elem_of_singleton.
      case_decide as Hkk.
      * subst k'. rewrite elem_of_difference, elem_of_singleton. tauto.
      * rewrite <-members_unfold, Hmem. split; [|tauto]. intros ?; split; [done|congruence].
    + intros m'. simpl. destruct (peer_meta st !! sid) as [m|] eqn:Hm; [|by rewrite Hm].
      destruct (py_eq_key (m_room m) k) eqn:Heq.
      * by rewrite lookup_delete_eq.
      * rewrite Hm. intros [= <-]. destruct (Hreg _ eq_refl) as (Hh & k0 & -> & Hin).
        split; [done|]. exists k0. split; [done|]. intros Hnan.
        rewrite elem_of_difference, elem_of_singleton. split; [by apply Hin|].
        intros ->. apply py_eq_key_false in Heq as [Heq|Heq]; done.
Qed.

Lemma run_tracks py_str sid ops st J l :
  tracks st sid J l →
  tracks (run py_str (op_event sid <$> ops) st) sid
         (fold_left track_joined ops J) (fold_left track_last ops l).
Proof.
  revert st J l. induction ops as [|op ops IH]; intros st J l Ht; [done|].
  simpl. apply IH. by apply step_tracks.
Qed.

Lemma one_room_last ops J l :
  (∀ k, k ∈ J → l = Some k) →
  one_room_at_a_time J ops = true →
  ∀ k, k ∈ fold_left track_joined ops J → fold_left track_last ops l = Some k.
Proof.
  revert J l. induction ops as [|op ops IH]; intros J l HJ Hone; simpl; [done|].
  simpl in Hone. apply andb_true_iff in Hone as [Hop Hone].
  apply IH; [|done]. destruct op as [data|data]; simpl.
  - destruct (request_key data) as [k0|]; [|done].
    apply bool_decide_eq_true in Hop. intros k Hk. f_equal.
    apply elem_of_union in Hk as [Hk|Hk]; [apply Hop in Hk|];
      by apply elem_of_singleton in Hk.
  - destruct (request_key data) as [k0|]; [|done]. intros k Hk. apply HJ.
    by apply elem_of_difference in Hk as [Hk _].
Qed.

Lemma step_tracks_others py_str sid ev st J l :
  own_op sid ev = None → ev ≠ Disconnect sid →
  tracks st sid J l → tracks (step py_str st ev) sid J l.
Proof.
  intros Hown Hdis [Hmem Hreg].
  destruct (decide (sender ev = sid)) as [Hs|Hs].
  - assert (rooms (step py_str st ev) = rooms st ∧
            ∀ m, peer_meta (step py_str st ev) !! sid = Some m →
                 ∃ m0, peer_meta st !! sid = Some m0 ∧ m_room m0 = m_room m) as [Hrs Hpm].
    { unfold step.
      destruct ev as [s|s|s data|s data|s data|s data|s data|s data|s data];
        cbn [handle sender own_op] in *; subst s.
      - split; [done|]. intros m Hm. by exists m.
      - done.
      - by rewrite decide_True in Hown.
      - by rewrite decide_True in Hown.
      - destruct (rename_st py_str sid data st) as [-> | (info & name & Hi & ->)].
        + split; [done|]. intros m Hm. by exists m.
        + split; [done|]. intros m. cbn [peer_meta]. rewrite lookup_insert_eq.
          intros [= <-]. by exists info.
      - rewrite list_peers_st. split; [done|]. intros m Hm. by exists m.
      - rewrite signal_st. split; [done|]. intros m Hm. by exists m.
      - rewrite offer_st. split; [done|]. intros m Hm. by exists m.
      - rewrite offer_response_st. split; [done|]. intros m Hm. by exists m. }
    split.
    + intros k. unfold members. rewrite Hrs. apply Hmem.
    + intros m Hm. destruct (Hpm m Hm) as (m0 & Hm0 & <-). by apply Hreg.
  - destruct (step_others_untouched py_str st ev sid) as [Hpm Hrs]; [done|].
    split.
    + intros k. by rewrite Hrs.
    + intros m. rewrite Hpm. apply Hreg.
Qed.

Lemma own_op_event sid ev op : own_op sid ev = Some op → ev = op_event sid op.
Proof.
  destruct ev; try done; cbn; case_decide; try done; intros [= <-]; by subst.
Qed.

Lemma run_tracks_interleaved py_str sid evs st J l :
  Disconnect sid ∉ evs →
  tracks st sid J l →
  tracks (run py_str evs st) sid
         (fold_left track_joined (omap (own_op sid) evs) J)
         (fold_left track_last (omap (own_op sid) evs) l).
Proof.
  revert st J l. induction evs as [|ev evs IH]; intros st J l Hdis Ht; [done|].
  apply not_elem_of_cons in Hdis as [Hne Hdis]. cbn [run fold_left omap list_omap].
  destruct (own_op sid ev) as [op|] eqn:Hown.
  - cbn [fold_left]. apply IH; [done|].
    rewrite (own_op_event _ _ _ Hown). by apply step_tracks.
  - apply IH; [done|]. by apply step_tracks_others.
Qed.

(** ** The handlers on concrete events *)

(** The scenario of the specification: A and B join "lobby", B offers to
    A, A disconnects. *)
Example scenario_lobby :
  let sA := res_st (join "A" (join_doc "lobby" "Alice") init) in
  let sAB := res_st (join "B" (join_doc "lobby" "Bob") sA) in
  let entry sid name := VDict [("sid", VStr sid); ("name", VStr name)] in
  let peers l := VDict [("peers", VList l)] in
  let lobby := VStr "lobby" in
  res_out (join "A" (join_doc "lobby" "Alice") init) =
    [EnterRoom "A" lobby;
     Emit "peer-joined" (sid_payload "A") (ToRoom lobby (Some "A"));
     Emit "peer-list" (peers [entry "A" "Alice"]) (ToRoom lobby None)] ∧
  res_out (join "B" (join_doc "lobby" "Bob") sA) =
    [EnterRoom "B" lobby;
     Emit "peer-joined" (sid_payload "B") (ToRoom lobby (Some "B"));
     Emit "peer-list" (peers [entry "A" "Alice"; entry "B" "Bob"]) (ToRoom lobby None)] ∧
  offer "B" (VDict [("room", lobby); ("target", VStr "A");
                    ("payload", VDict [("sdp", VStr "x")])]) sAB =
    mkRes sAB
      [Emit "offer"
         (VDict [("from", VStr "B"); ("name", VStr "Bob");
                 ("payload", VDict [("sdp", VStr "x")])])
         (ToSid (VStr "A"))]
      (inr ()) ∧
  res_out (disconnect "A" sAB) =
    [Emit "peer-left" (sid_payload "A") (ToRoom lobby None);
     Emit "peer-list" (peers [entry "B" "Bob"]) (ToRoom lobby None)].
Proof. vm_compute. done. Qed.

(** A payload that is true and not a dict makes [.get] raise. *)
Example join_string_payload_raises :
  join "p" (VStr "lobby") init = mkRes init [] (inl AttributeError).
Proof. reflexivity. Qed.

(** A room that is a list cannot be a key of [rooms]. *)
Example join_list_room_raises :
  join "p" (VDict [("room", VList [VInt 1])]) init =
    mkRes init [EnterRoom "p" (VList [VInt 1])] (inl TypeError).
Proof. reflexivity. Qed.

(** [True] and [1] are the same room. *)
Example join_true_is_room_one :
  members (res_st (join "p" (VDict [("room", VBool true)]) init)) (KInt 1) = {["p"]}.
Proof. vm_compute. reflexivity. Qed.

(** NaN is a key of [rooms] and equals nothing: a peer that joins room NaN
    and leaves it is discarded from the member set and keeps its registry
    entry. *)
Example join_leave_nan :
  members st_nan KNaN = ∅ ∧
  peer_meta st_nan !! "p" = Some (mkMeta (VStr "p") (VFloat S754_nan)).
Proof. vm_compute. done. Qed.

(** [1.0] and [1] are the same room; [0.5] is another. *)
Example float_room_keys :
  hash_key (VFloat (S754_finite false 4503599627370496 (-52))) = Some (KInt 1) ∧
  hash_key (VFloat (S754_finite false 4503599627370496 (-53))) = Some (KFrac false 1 (-1)).
Proof. vm_compute. done. Qed.

(** * The claims *)

(** C1, as stated, fails: a peer that joins room "a" and then room "b"
    without leaving is a member of both. *)
Lemma two_rooms_counterexample :
  ¬ single_room_after str_of "p" [OpJoin (room_doc "a"); OpJoin (room_doc "b")] init.
Proof.
  intros (Hone & _ & _).
  assert (KStr "a" = KStr "b") as [=].
  apply Hone; apply (bool_decide_unpack _); vm_compute; exact I.
Qed.

(** C1 (amended): after any sequence of join and leave requests of a peer
    that was unknown before, the peer is a member of exactly the rooms it
    joined and has not left since; a registry entry of the peer records the
    room of its last join that got through, and the peer is a member of
    that room unless the room is NaN; no member set lists an id twice; and
    when every join is issued while the peer is in no other room, the peer
    is in at most one room, which is the room of its last join. *)
Theorem join_leave_membership (py_str : Value → string) sid ops st0 :
  fresh_peer st0 sid →
  let st := run py_str (op_event sid <$> ops) st0 in
  (∀ k, sid ∈ members st k ↔ k ∈ joined_rooms ops) ∧
  (∀ m, peer_meta st !! sid = Some m →
        hash_key (m_room m) = last_join ops ∧
        ∃ k, last_join ops = Some k ∧ (k ≠ KNaN → sid ∈ members st k)) ∧
  (∀ k, NoDup (elements (members st k))) ∧
  (one_room_at_a_time ∅ ops = true → single_room_after py_str sid ops st0).
Proof.
  intros Hfresh st.
  destruct (run_tracks py_str sid ops st0 ∅ None (fresh_tracks _ _ Hfresh)) as [Hmem Hreg].
  fold st in Hmem, Hreg. fold (joined_rooms ops) in Hmem, Hreg.
  fold (last_join ops) in Hreg.
  assert (Hnd : ∀ k, NoDup (elements (members st k))) by (intros; apply NoDup_elements).
  split_and!; [done| |done|].
  - intros m Hm. destruct (Hreg m Hm) as (Hh & k & Hl & Hin).
    split; [done|]. exists k. split; [done|]. intros Hnan. by apply Hmem, Hin.
  - intros Hone.
    assert (Hlast : ∀ k, sid ∈ members st k → last_join ops = Some k).
    { intros k Hk. apply (one_room_last ops ∅ None);
        [by intros ? ?%not_elem_of_empty|done|]. by apply Hmem. }
    split_and!; [|done|done].
    intros k k' Hk Hk'. apply Hlast in Hk, Hk'. congruence.
Qed.

Lemma join_leave_membership_witness :
  fresh_peer init "p" ∧
  single_room_after str_of "p"
    [OpJoin (room_doc "a"); OpLeave (room_doc "a"); OpJoin (join_doc "b" "Bob")] init.
Proof.
  split; [apply fresh_peer_init|].
  apply (join_leave_membership str_of "p"
           [OpJoin (room_doc "a"); OpLeave (room_doc "a"); OpJoin (join_doc "b" "Bob")]
           init (fresh_peer_init "p")).
  vm_compute. reflexivity.
Defined.

(** C2, as stated, fails: after peer p joined room NaN and left it, the
    registry still records room NaN for p ([NaN == NaN] is false, so leave
    keeps the entry) and p is no member of that room. *)
Lemma nan_room_counterexample :
  ¬ (reachable str_of st_nan → registry_in_index st_nan).
Proof.
  intros H.
  assert (Hreach : reachable str_of st_nan).
  { apply (reachable_step str_of _ (Leave "p" nan_doc)).
    apply (reachable_step str_of init (Join "p" nan_doc)), reachable_init. }
  destruct (H Hreach "p" (mkMeta (VStr "p") (VFloat S754_nan)) eq_refl)
    as (k & [= <-] & Hin).
  revert Hin. apply (bool_decide_unpack _). vm_compute. exact I.
Qed.

(** C2 (amended): every handler keeps the registry-to-index invariant for
    the rooms a value can equal (a peer whose registry entry records room
    R, R not NaN, is in the member set of R), so it holds in every
    reachable state; and every event but a leave of room NaN keeps the
    invariant for all rooms. *)
Theorem registry_index_invariant (py_str : Value → string) :
  (∀ st ev, registry_in_index_unless_nan st →
            registry_in_index_unless_nan (step py_str st ev)) ∧
  (∀ st, reachable py_str st → registry_in_index_unless_nan st) ∧
  (∀ st ev, ¬ nan_leave ev → registry_in_index st →
            registry_in_index (step py_str st ev)).
Proof.
  split_and!;
    [apply step_preserves_unless_nan | apply reachable_in_index_unless_nan |
     apply step_preserves].
Qed.

Lemma registry_index_invariant_witness :
  registry_in_index init ∧
  ¬ nan_leave (Join "p" (room_doc "a")) ∧
  registry_in_index (step str_of init (Join "p" (room_doc "a"))) ∧
  registry_in_index_unless_nan st_nan.
Proof.
  split; [apply registry_in_index_init|].
  split; [apply not_nan_leave_join|]. split.
  - apply (proj2 (proj2 (registry_index_invariant str_of))
             init (Join "p" (room_doc "a")) (not_nan_leave_join _ _)
             registry_in_index_init).
  - apply (proj1 (proj2 (registry_index_invariant str_of))).
    apply (reachable_step str_of _ (Leave "p" nan_doc)).
    apply (reachable_step str_of init (Join "p" nan_doc)), reachable_init.
Defined.

(** C3, as stated, fails: after peer "p" joined "a" and then "b", the peer
    list of "a" lists "p", whose registry room is "b". *)
Lemma listed_peer_other_room_counterexample :
  ¬ peer_list_as_specified
      (run str_of [Join "p" (room_doc "a"); Join "p" (room_doc "b")] init)
      (VStr "a") (KStr "a").
Proof.
  intros (peers & Hout & _ & Hall).
  vm_compute in Hout. injection Hout as <-.
  destruct (Hall _ (list_elem_of_here _ _)) as (sid & _ & [= <-] & Hroom).
  by specialize (Hroom (mkMeta (VStr "p") (VStr "b")) eq_refl).
Qed.

(** C3 (amended): for a room R of key k, [broadcast_peer_list] emits one
    peer list to R, as long as the member set of R, whose entries are the
    members with their registry display name, or their id when they have no
    registry entry; and in a reachable state every peer whose registry room
    equals R is listed (a listed peer may record another room, or none). *)
Theorem broadcast_peer_list_spec (py_str : Value → string) st R k :
  hash_key R = Some k →
  broadcast_peer_list R st =
    mkRes st [Emit "peer-list" (VDict [("peers", VList (peer_list st k))]) (ToRoom R None)]
          (inr ()) ∧
  length (peer_list st k) = size (members st k) ∧
  (∀ e, e ∈ peer_list st k ↔
        ∃ sid, sid ∈ members st k ∧
               e = VDict [("sid", VStr sid);
                          ("name", match peer_meta st !! sid with
                                   | Some m => m_name m
                                   | None => VStr sid
                                   end)]) ∧
  (reachable py_str st →
   ∀ sid m, peer_meta st !! sid = Some m → py_eq_key (m_room m) k = true →
            peer_entry st sid ∈ peer_list st k).
Proof.
  intros Hk. split_and!.
  - by apply broadcast_peer_list_ok.
  - unfold peer_list. by rewrite length_fmap.
  - intros e. unfold peer_list. rewrite list_elem_of_fmap.
    split; intros (sid & H1 & H2); exists sid.
    + by apply elem_of_elements in H2.
    + by apply elem_of_elements in H1.
  - intros Hreach sid m Hm [Hroom Hnan]%py_eq_key_true.
    destruct (reachable_in_index_unless_nan _ _ Hreach _ _ Hm) as (k' & Hk' & Hin).
    assert (k' = k) as -> by congruence.
    unfold peer_list. apply list_elem_of_fmap_2. by apply elem_of_elements, Hin.
Qed.

Lemma broadcast_peer_list_spec_witness :
  hash_key (VStr "lobby") = Some (KStr "lobby") ∧
  broadcast_peer_list (VStr "lobby") (res_st (join "A" (join_doc "lobby" "Alice") init)) =
    mkRes (res_st (join "A" (join_doc "lobby" "Alice") init))
      [Emit "peer-list"
         (VDict [("peers", VList [VDict [("sid", VStr "A"); ("name", VStr "Alice")]])])
         (ToRoom (VStr "lobby") None)]
      (inr ()).
Proof.
  split; [reflexivity|].
  apply (broadcast_peer_list_spec str_of
           (res_st (join "A" (join_doc "lobby" "Alice") init))
           (VStr "lobby") (KStr "lobby") eq_refl).
Defined.

(** C4, as stated, fails: leaving the recorded room drops the whole
    registry entry, display name included. *)
Lemma leave_drops_name_counterexample :
  ¬ leave_as_specified (res_st (join "p" (join_doc "a" "Alice") init)) "p"
      (room_doc "a") (KStr "a").
Proof.
  intros (_ & Hname & _). vm_compute in Hname. discriminate.
Qed.

(** C4 (amended): for a room that is true and hashable, [leave] changes in
    the index the member set of that room alone, from which it removes the
    peer; it removes the peer's whole registry entry (display name and
    room) when the recorded room equals the given room, and leaves the
    registry as it is otherwise. *)
Theorem leave_effect sid d k st :
  truthy (dict_get d "room") = true →
  hash_key (dict_get d "room") = Some k →
  let st' := res_st (leave sid (VDict d) st) in
  rooms st' = <[k := members st k ∖ {[sid]}]> (rooms st) ∧
  members st' k = members st k ∖ {[sid]} ∧
  (∀ m, peer_meta st !! sid = Some m → py_eq_key (m_room m) k = true →
        peer_meta st' = delete sid (peer_meta st)) ∧
  (∀ m, peer_meta st !! sid = Some m → py_eq_key (m_room m) k = false →
        peer_meta st' = peer_meta st) ∧
  (peer_meta st !! sid = None → peer_meta st' = peer_meta st).
Proof.
  intros Hr Hk st'. pose proof (leave_request sid (VDict d) st) as Hl.
  rewrite (request_key_dict _ Hr), Hk in Hl. fold st' in Hl. rewrite Hl. simpl.
  split_and!.
  - done.
  - by rewrite members_insert, decide_True.
  - by intros m -> ->.
  - by intros m -> ->.
  - by intros ->.
Qed.

Lemma leave_effect_witness :
  truthy (VStr "a") = true ∧ hash_key (VStr "a") = Some (KStr "a") ∧
  members (res_st (leave "p" (room_doc "a") (res_st (join "p" (join_doc "a" "Alice") init))))
          (KStr "a") =
    members (res_st (join "p" (join_doc "a" "Alice") init)) (KStr "a") ∖ {["p"]}.
Proof.
  split; [reflexivity|]. split; [reflexivity|].
  apply (leave_effect "p" [("room", VStr "a")] (KStr "a")
           (res_st (join "p" (join_doc "a" "Alice") init)) eq_refl eq_refl).
Defined.

(** C5: disconnect is idempotent: a second disconnect of the same id
    changes neither the registry nor the index, emits nothing and raises
    nothing. *)
Theorem disconnect_idempotent sid st :
  let r1 := disconnect sid st in
  let r2 := disconnect sid (res_st r1) in
  res_st r2 = res_st r1 ∧ res_out r2 = [] ∧ res_val r2 = inr ().
Proof.
  cbv zeta. by rewrite (disconnect_absent sid _ (disconnect_gone sid st)).
Qed.




(** C7: offer and offer-response are pure relays: on every input and in
    every state they leave the registry and the index unchanged, and every
    call they make on the transport is an emit to one connection. *)
Theorem relay_frame sid data st :
  res_st (offer sid data st) = st ∧
  res_st (offer_response sid data st) = st ∧
  Forall (λ c, ∃ target, to_one target c) (res_out (offer sid data st)) ∧
  Forall (λ c, ∃ target, to_one target c) (res_out (offer_response sid data st)).
Proof.
  split_and!; [apply offer_st | apply offer_response_st | |];
    rewrite ?offer_eval, ?offer_response_eval;
    (destruct (document data) as [e|d]; [by constructor|]);
    (destruct (_ && _); constructor; [|by constructor]);
    unfold to_one; eauto.
Qed.

(** C8: a well-formed offer (room and target true, payload present) makes
    one call on the transport: the emit of [{from, name, payload}] to the
    target. The same offer with another room, in a state with any other
    room index and registry that agrees on the sender's entry, makes the
    same call: neither the room field nor any room membership is read. *)
Theorem offer_to_target_only sid d d' st st' :
  truthy (dict_get d "room") = true →
  truthy (dict_get d "target") = true →
  is_none (dict_get d "payload") = false →
  truthy (dict_get d' "room") = true →
  dict_get d' "target" = dict_get d "target" →
  dict_get d' "payload" = dict_get d "payload" →
  peer_meta st' !! sid = peer_meta st !! sid →
  res_out (offer sid (VDict d) st) =
    [Emit "offer"
       (VDict [("from", VStr sid); ("name", display_name st sid);
               ("payload", dict_get d "payload")])
       (ToSid (dict_get d "target"))] ∧
  res_out (offer sid (VDict d') st') = res_out (offer sid (VDict d) st).
Proof.
  intros Hr Ht Hp Hr' Ht' Hp' Hm.
  rewrite (offer_accepts sid d st), (offer_accepts sid d' st') by congruence.
  simpl. split; [done|]. unfold display_name. by rewrite Ht', Hp', Hm.
Qed.

Lemma offer_to_target_only_witness :
  res_out (offer "B" (VDict [("room", VStr "elsewhere"); ("target", VStr "A");
                             ("payload", VDict [("sdp", VStr "x")])])
                 (res_st (join "B" (join_doc "lobby" "Bob") init))) =
  res_out (offer "B" (VDict [("room", VStr "lobby"); ("target", VStr "A");
                             ("payload", VDict [("sdp", VStr "x")])])
                 (res_st (join "A" (join_doc "lobby" "Alice")
                            (res_st (join "B" (join_doc "lobby" "Bob") init))))).
Proof.
  apply (offer_to_target_only "B"
           [("room", VStr "lobby"); ("target", VStr "A"); ("payload", VDict [("sdp", VStr "x")])]
           [("room", VStr "elsewhere"); ("target", VStr "A"); ("payload", VDict [("sdp", VStr "x")])]
           (res_st (join "A" (join_doc "lobby" "Alice")
                      (res_st (join "B" (join_doc "lobby" "Bob") init))))
           (res_st (join "B" (join_doc "lobby" "Bob") init))
           eq_refl eq_refl eq_refl eq_refl eq_refl eq_refl).
  vm_compute. reflexivity.
Defined.

(** C9: in join, a name that is present but false (the empty string,
    [None], [0], [False]) is treated as an absent name: the result is that
    of the document without the name, the registered display name is the
    peer's id, and for a peer whose id is not the empty string no join
    stores the empty string as display name. *)
Theorem join_falsy_name sid d d' st :
  truthy (dict_get d "name") = false →
  has_key d' "name" = false →
  dict_get d' "room" = dict_get d "room" →
  Forall (λ v, truthy v = false) [VStr ""; VNone; VInt 0; VBool false] ∧
  join sid (VDict d) st = join sid (VDict d') st ∧
  (∀ k, truthy (dict_get d "room") = true → hash_key (dict_get d "room") = Some k →
        peer_meta (res_st (join sid (VDict d) st)) !! sid =
          Some (mkMeta (VStr sid) (dict_get d "room"))) ∧
  (sid ≠ "" →
   ∀ d2 k, truthy (dict_get d2 "room") = true → hash_key (dict_get d2 "room") = Some k →
           ∃ m, peer_meta (res_st (join sid (VDict d2) st)) !! sid = Some m ∧
                m_name m ≠ VStr "").
Proof.
  intros Hn Hk' Hr. split_and!.
  - by repeat constructor.
  - unfold join.
    destruct (py_or_dict d) as (d0 & -> & H0), (py_or_dict d') as (d0' & -> & H0').
    unfold as_dict. rewrite !bind_ret.
    rewrite !H0, !H0', Hr, (has_key_false_get _ _ Hk').
    unfold py_or. rewrite Hn. reflexivity.
  - intros k Ht Hk. rewrite (join_accepts sid d k st Ht Hk). simpl.
    rewrite lookup_insert_eq. unfold py_or. by rewrite Hn.
  - intros Hsid d2 k Ht Hk. rewrite (join_accepts sid d2 k st Ht Hk). simpl.
    rewrite lookup_insert_eq. eexists; split; [done|]. simpl.
    unfold py_or. destruct (truthy (dict_get d2 "name")) eqn:E.
    + by apply truthy_not_empty.
    + congruence.
Qed.

Lemma join_falsy_name_witness :
  truthy (VStr "") = false ∧
  join "p" (VDict [("room", VStr "a"); ("name", VStr "")]) init =
    join "p" (VDict [("room", VStr "a")]) init ∧
  peer_meta (res_st (join "p" (VDict [("room", VStr "a"); ("name", VStr "")]) init)) !! "p" =
    Some (mkMeta (VStr "p") (VStr "a")).
Proof.
  split; [reflexivity|].
  destruct (join_falsy_name "p" [("room", VStr "a"); ("name", VStr "")]
              [("room", VStr "a")] init eq_refl eq_refl eq_refl)
    as (_ & Hsame & Hname & _).
  split; [exact Hsame | exact (Hname (KStr "a") eq_refl eq_refl)].
Defined.

(** C10: the validation of offer is asymmetric: a room or a target that is
    false (the empty string included) drops the event, a payload drops it
    only when it is [None]; a payload that is false but present (the empty
    string, [0], [False]) is relayed to the target unchanged. *)
Theorem offer_validation_asymmetric sid d st :
  let room := dict_get d "room" in
  let target := dict_get d "target" in
  let payload := dict_get d "payload" in
  let relayed :=
    mkRes st
      [Emit "offer"
         (VDict [("from", VStr sid); ("name", display_name st sid);
                 ("payload", payload)])
         (ToSid target)]
      (inr ()) in
  (truthy room = false → offer sid (VDict d) st = mkRes st [] (inr ())) ∧
  (truthy target = false → offer sid (VDict d) st = mkRes st [] (inr ())) ∧
  (payload = VNone → offer sid (VDict d) st = mkRes st [] (inr ())) ∧
  (truthy room = true → truthy target = true → payload ≠ VNone →
     offer sid (VDict d) st = relayed) ∧
  (truthy room = true → truthy target = true →
     payload ∈ [VStr ""; VInt 0; VBool false] →
     truthy payload = false ∧ offer sid (VDict d) st = relayed).
Proof.
  cbv zeta. split_and!.
  - intros H. apply offer_rejects. auto.
  - intros H. apply offer_rejects. auto.
  - intros H. apply offer_rejects. rewrite H. auto.
  - intros Hr Ht Hp. apply offer_accepts; [done..|]. by destruct (dict_get d "payload").
  - intros Hr Ht Hp. rewrite !elem_of_cons, elem_of_nil in Hp.
    split; [by destruct Hp as [-> | [-> | [-> | []]]]|].
    apply offer_accepts; [done..|]. by destruct Hp as [-> | [-> | [-> | []]]].
Qed.

Lemma offer_validation_asymmetric_witness :
  truthy (VStr "") = false ∧
  offer "s" (VDict [("room", VStr "r"); ("target", VStr "t"); ("payload", VStr "")]) init =
    mkRes init
      [Emit "offer" (VDict [("from", VStr "s"); ("name", VStr "s"); ("payload", VStr "")])
         (ToSid (VStr "t"))]
      (inr ()).
Proof.
  apply (proj2 (proj2 (proj2 (proj2
           (offer_validation_asymmetric "s"
              [("room", VStr "r"); ("target", VStr "t"); ("payload", VStr "")] init)))));
    [reflexivity | reflexivity | apply list_elem_of_here].
Defined.

(** * Further properties of the handlers *)

(** ** What an event leaves alone *)

(** X1: an event changes nothing of a peer other than its sender: the
    registry entry of every other peer and its membership in every room are
    the same before and after, whatever the event and its payload. *)
Theorem other_peers_untouched (py_str : Value → string) st ev sid' :
  sid' ≠ sender ev →
  peer_meta (step py_str st ev) !! sid' = peer_meta st !! sid' ∧
  ∀ k, sid' ∈ members (step py_str st ev) k ↔ sid' ∈ members st k.
Proof.
  apply step_others_untouched.
Qed.

Lemma other_peers_untouched_witness :
  "B" ≠ sender (Leave "A" (room_doc "lobby")) ∧
  peer_meta (step str_of st_AB (Leave "A" (room_doc "lobby"))) !! "B" = peer_meta st_AB !! "B".
Proof.
  assert (Hne : "B" ≠ sender (Leave "A" (room_doc "lobby"))) by done.
  split; [exact Hne|].
  apply (other_peers_untouched str_of st_AB (Leave "A" (room_doc "lobby")) "B" Hne).
Defined.

(** X2: presence is acquired by join alone: a peer that is a member of a
    room after an event was a member before, or the event is its own join
    of that room; a registry entry after an event was there before with the
    same room, or the event is the peer's own join of the recorded room. *)
Theorem presence_only_by_join (py_str : Value → string) st ev sid :
  (∀ k, sid ∈ members (step py_str st ev) k →
        sid ∈ members st k ∨ ∃ data, ev = Join sid data ∧ request_key data = Some k) ∧
  (∀ m, peer_meta (step py_str st ev) !! sid = Some m →
        (∃ m0, peer_meta st !! sid = Some m0 ∧ m_room m0 = m_room m) ∨
        ∃ data k, ev = Join sid data ∧ request_key data = Some k ∧
                  hash_key (m_room m) = Some k).
Proof.
  destruct (step_state_cases py_str st ev) as [-> | [(k0 & Hrs) Hpm]].
  { split; [auto|]. intros m Hm. left. by exists m. }
  split.
  - intros k. unfold members.
    destruct Hrs as [-> | [-> | [-> (data & Hev & Hk)]]]; [auto| |].
    + rewrite lookup_insert. case_decide as Hkk; [subst k0|auto]. simpl.
      rewrite elem_of_difference. fold (members st k). tauto.
    + rewrite lookup_insert. case_decide as Hkk; [subst k0|auto]. simpl.
      rewrite elem_of_union, elem_of_singleton. fold (members st k).
      intros [?| ->]; [by left|]. right. by exists data.
  - intros m. destruct Hpm as [-> | [-> | (m1 & -> & Hm1)]].
    + intros Hm. left. by exists m.
    + intros [_ Hm]%lookup_delete_Some. left. by exists m.
    + rewrite lookup_insert. case_decide as Hs.
      * subst sid. intros [= <-].
        destruct Hm1 as [?|(data & k & Hev & Hk & _ & Hh)]; [by left|].
        right. by exists data, k.
      * intros Hm. left. by exists m.
Qed.

Lemma presence_only_by_join_witness :
  "B" ∈ members (step str_of st_A (Join "B" (join_doc "lobby" "Bob"))) (KStr "lobby") ∧
  ("B" ∈ members st_A (KStr "lobby") ∨
   ∃ data, Join "B" (join_doc "lobby" "Bob") = Join "B" data ∧
           request_key data = Some (KStr "lobby")).
Proof.
  assert (Hin : "B" ∈ members (step str_of st_A (Join "B" (join_doc "lobby" "Bob")))
                        (KStr "lobby"))
    by (apply (bool_decide_unpack _); vm_compute; exact I).
  split; [exact Hin|].
  exact (proj1 (presence_only_by_join str_of st_A (Join "B" (join_doc "lobby" "Bob")) "B")
           (KStr "lobby") Hin).
Defined.

(** X3: no handler deletes an entry of [rooms]: a room that has a member
    set before an event, even an empty one, still has one after it. *)
Theorem room_entries_never_removed (py_str : Value → string) st ev k :
  is_Some (rooms st !! k) → is_Some (rooms (step py_str st ev) !! k).
Proof.
  intros Hk. destruct (step_state_cases py_str st ev) as [-> | [(k0 & Hrs) _]]; [done|].
  destruct Hrs as [-> | [-> | [-> _]]]; [done| |];
    rewrite lookup_insert; by case_decide.
Qed.

Lemma room_entries_never_removed_witness :
  is_Some (rooms st_A !! KStr "lobby") ∧
  is_Some (rooms (step str_of st_A (Disconnect "A")) !! KStr "lobby").
Proof.
  assert (H : is_Some (rooms st_A !! KStr "lobby")) by (vm_compute; eauto).
  split; [exact H|].
  apply (room_entries_never_removed str_of st_A (Disconnect "A") (KStr "lobby") H).
Defined.

(** X4: in every reachable state each registry entry records a room that
    is true and hashable. *)
Theorem reachable_registry_rooms_ok (py_str : Value → string) st :
  reachable py_str st → registry_rooms_ok st.
Proof.
  apply reachable_rooms_ok.
Qed.

Lemma reachable_registry_rooms_ok_witness :
  reachable str_of st_AB ∧ registry_rooms_ok st_AB.
Proof.
  split; [apply reachable_st_AB|].
  apply (reachable_registry_rooms_ok str_of st_AB reachable_st_AB).
Defined.

(** ** Exceptions *)

(** X5: in a state that satisfies the registry-to-index invariant, whether
    a handler raises, and what, is decided by the payload alone:
    [AttributeError] for a true payload that is not a dict, [TypeError] for
    a join, leave or list_peers whose room is true and not hashable, and
    nothing otherwise; connect and disconnect never raise. *)
Theorem exception_by_payload (py_str : Value → string) st ev :
  registry_in_index st →
  res_val (handle py_str ev st) =
    match expected_exn ev with
    | Some e => inl e
    | None => inr ()
    end.
Proof.
  intros Hinv.
  destruct ev as [s|s|s data|s data|s data|s data|s data|s data|s data];
    cbn [handle expected_exn].
  - done.
  - rewrite disconnect_eval. destruct (peer_meta st !! s) as [m|] eqn:Hm; [|done].
    destruct (Hinv _ _ Hm) as (k & Hk & _). cbv zeta. rewrite Hk.
    by destruct (truthy (m_room m)).
  - rewrite join_eval. destruct (document data) as [e|d]; [done|].
    unfold room_exn. cbv zeta. destruct (truthy (dict_get d "room")); [|done].
    by destruct (hash_key (dict_get d "room")).
  - rewrite leave_eval. destruct (document data) as [e|d]; [done|].
    unfold room_exn. cbv zeta. destruct (truthy (dict_get d "room")); [|done].
    by destruct (hash_key (dict_get d "room")).
  - rewrite rename_eval. destruct (document data) as [e|d]; [done|].
    cbv zeta. destruct (truthy (dict_get d "name")); [|done].
    destruct (peer_meta st !! s) as [info|] eqn:Hi; [|done].
    destruct (Hinv _ _ Hi) as (k & Hk & _). rewrite Hk.
    by destruct (truthy (m_room info)).
  - rewrite list_peers_eval. destruct (document data) as [e|d]; [done|].
    unfold room_exn. cbv zeta. destruct (truthy (dict_get d "room")); [|done].
    by destruct (hash_key (dict_get d "room")).
  - rewrite signal_eval. destruct (document data) as [e|d]; [done|].
    by destruct (truthy (dict_get d "room")).
  - rewrite offer_eval. destruct (document data) as [e|d]; [done|].
    by destruct (_ && _).
  - rewrite offer_response_eval. destruct (document data) as [e|d]; [done|].
    by destruct (_ && _).
Qed.

Lemma exception_by_payload_witness :
  registry_in_index init ∧
  res_val (handle str_of (Join "p" (VDict [("room", VList [VInt 1])])) init) = inl TypeError ∧
  res_val (handle str_of (Signal "p" (VStr "hello")) init) = inl AttributeError.
Proof.
  split; [apply registry_in_index_init|]. split.
  - apply (exception_by_payload str_of init (Join "p" (VDict [("room", VList [VInt 1])]))
             registry_in_index_init).
  - apply (exception_by_payload str_of init (Signal "p" (VStr "hello"))
             registry_in_index_init).
Defined.

(** X6: in a state that satisfies the registry-to-index invariant, a
    handler that raises has changed neither the registry nor the index and
    has emitted no event. *)
Theorem raise_has_no_effect (py_str : Value → string) st ev e :
  registry_in_index st →
  res_val (handle py_str ev st) = inl e →
  res_st (handle py_str ev st) = st ∧
  Forall (λ c, is_emit c = false) (res_out (handle py_str ev st)).
Proof.
  intros Hinv.
  destruct ev as [s|s|s data|s data|s data|s data|s data|s data|s data]; cbn [handle].
  - done.
  - rewrite disconnect_eval. destruct (peer_meta st !! s) as [m|] eqn:Hm; [|done].
    destruct (Hinv _ _ Hm) as (k & Hk & _). cbv zeta. rewrite Hk.
    by destruct (truthy (m_room m)).
  - rewrite join_eval. destruct (document data) as [e'|d]; [by split; [|constructor]|].
    cbv zeta. destruct (truthy (dict_get d "room")); [|done].
    destruct (hash_key (dict_get d "room")); [done|]. by split; [|repeat constructor].
  - rewrite leave_eval. destruct (document data) as [e'|d]; [by split; [|constructor]|].
    cbv zeta. destruct (truthy (dict_get d "room")); [|done].
    destruct (hash_key (dict_get d "room")); [done|]. by split; [|repeat constructor].
  - rewrite rename_eval. destruct (document data) as [e'|d]; [by split; [|constructor]|].
    cbv zeta. destruct (truthy (dict_get d "name")); [|done].
    destruct (peer_meta st !! s) as [info|] eqn:Hi; [|done].
    destruct (Hinv _ _ Hi) as (k & Hk & _). rewrite Hk.
    by destruct (truthy (m_room info)).
  - rewrite list_peers_eval. destruct (document data) as [e'|d]; [by split; [|constructor]|].
    cbv zeta. destruct (truthy (dict_get d "room")); [|done].
    destruct (hash_key (dict_get d "room")); [done|]. by split; [|constructor].
  - rewrite signal_eval. destruct (document data) as [e'|d]; [by split; [|constructor]|].
    by destruct (truthy (dict_get d "room")).
  - rewrite offer_eval. destruct (document data) as [e'|d]; [by split; [|constructor]|].
    by destruct (_ && _).
  - rewrite offer_response_eval.
    destruct (document data) as [e'|d]; [by split; [|constructor]|].
    by destruct (_ && _).
Qed.

Lemma raise_has_no_effect_witness :
  registry_in_index init ∧
  res_val (handle str_of (Leave "p" (VDict [("room", VList [VInt 1])])) init) = inl TypeError ∧
  res_st (handle str_of (Leave "p" (VDict [("room", VList [VInt 1])])) init) = init.
Proof.
  split; [apply registry_in_index_init|]. split; [reflexivity|].
  apply (raise_has_no_effect str_of init (Leave "p" (VDict [("room", VList [VInt 1])]))
           TypeError registry_in_index_init eq_refl).
Defined.

(** ** Empty entries of the index are not observable *)

Lemma same_presence_peer_list st1 st2 k :
  same_presence st1 st2 → peer_list st2 k = peer_list st1 k.
Proof.
  intros [Hpm Hmem]. unfold peer_list, peer_entry, display_name. by rewrite Hpm, Hmem.
Qed.

Lemma same_presence_refl st : same_presence st st.
Proof. done. Qed.

Lemma same_presence_update st1 st2 k (f : gset string → gset string) pm1 pm2 :
  same_presence st1 st2 → pm2 = pm1 →
  same_presence (mkState (<[k := f (members st1 k)]> (rooms st1)) pm1)
                (mkState (<[k := f (members st2 k)]> (rooms st2)) pm2).
Proof.
  intros [Hpm Hmem] ->. split; [done|]. intros k'. rewrite !members_insert, Hmem.
  case_decide; [done|]. apply Hmem.
Qed.

(** With [elements] as the iteration order of both indexes the calls are
    equal; X7 below keeps of it what holds for every iteration order. *)
Lemma handle_same_presence py_str st1 st2 ev :
  same_presence st1 st2 →
  res_out (handle py_str ev st2) = res_out (handle py_str ev st1) ∧
  res_val (handle py_str ev st2) = res_val (handle py_str ev st1) ∧
  same_presence (res_st (handle py_str ev st1)) (res_st (handle py_str ev st2)).
Proof.
  intros Hsame. pose proof Hsame as [Hpm Hmem].
  assert (Hname : ∀ sid, display_name st2 sid = display_name st1 sid)
    by (intros; unfold display_name; by rewrite Hpm).
  destruct ev as [s|s|s data|s data|s data|s data|s data|s data|s data]; cbn [handle].
  - done.
  - rewrite !disconnect_eval, Hpm. destruct (peer_meta st1 !! s) as [m|]; [|done].
    assert (same_presence (mkState (rooms st1) (delete s (peer_meta st1)))
                          (mkState (rooms st2) (delete s (peer_meta st1)))) as Hgone
      by (split; [done|apply Hmem]).
    cbv zeta. destruct (truthy (m_room m)); [|done].
    destruct (hash_key (m_room m)) as [k|]; [|done].
    assert (same_presence (after_disconnect st1 s k) (after_disconnect st2 s k)) as Hs'
      by (apply (same_presence_update _ _ _ (λ X, X ∖ {[s]})); [done|by rewrite Hpm]).
    cbn [res_out res_val res_st]. unfold peer_list_call.
    by rewrite (same_presence_peer_list _ _ k Hs').
  - rewrite !join_eval. destruct (document data) as [e|d]; [done|].
    cbv zeta. destruct (truthy (dict_get d "room")); [|done].
    destruct (hash_key (dict_get d "room")) as [k|]; [|done].
    match goal with |- context [after_join st1 s k ?n ?r] =>
      assert (same_presence (after_join st1 s k n r) (after_join st2 s k n r)) as Hs'
        by (apply (same_presence_update _ _ _ (λ X, X ∪ {[s]})); [done|by rewrite Hpm])
    end.
    cbn [res_out res_val res_st]. unfold peer_list_call.
    by rewrite (same_presence_peer_list _ _ k Hs').
  - rewrite !leave_eval. destruct (document data) as [e|d]; [done|].
    cbv zeta. destruct (truthy (dict_get d "room")); [|done].
    destruct (hash_key (dict_get d "room")) as [k|]; [|done].
    assert (same_presence (after_leave st1 s k) (after_leave st2 s k)) as Hs'
      by (apply (same_presence_update _ _ _ (λ X, X ∖ {[s]})); [done|by rewrite Hpm]).
    cbn [res_out res_val res_st]. unfold peer_list_call.
    by rewrite (same_presence_peer_list _ _ k Hs').
  - rewrite !rename_eval. destruct (document data) as [e|d]; [done|].
    cbv zeta. destruct (truthy (dict_get d "name")); [|done].
    rewrite Hpm. destruct (peer_meta st1 !! s) as [info|]; [|done].
    match goal with |- context [after_rename st1 s ?n ?r] =>
      assert (same_presence (after_rename st1 s n r) (after_rename st2 s n r)) as Hs'
        by (split; [cbn; by rewrite Hpm | apply Hmem])
    end.
    destruct (truthy (m_room info)); [|done].
    destruct (hash_key (m_room info)) as [k|]; [|done].
    cbn [res_out res_val res_st]. unfold peer_list_call.
    by rewrite (same_presence_peer_list _ _ k Hs').
  - rewrite !list_peers_eval. destruct (document data) as [e|d]; [done|].
    cbv zeta. destruct (truthy (dict_get d "room")); [|done].
    destruct (hash_key (dict_get d "room")) as [k|]; [|done].
    cbn [res_out res_val res_st]. unfold peer_list_call.
    by rewrite (same_presence_peer_list _ _ k Hsame).
  - rewrite !signal_eval. destruct (document data) as [e|d]; [done|].
    by destruct (truthy (dict_get d "room")).
  - rewrite !offer_eval. destruct (document data) as [e|d]; [done|].
    destruct (_ && _); [|done]. cbn [res_out res_val res_st]. by rewrite Hname.
  - rewrite !offer_response_eval. destruct (document data) as [e|d]; [done|].
    destruct (_ && _); [|done]. cbn [res_out res_val res_st]. by rewrite Hname.
Qed.

Lemma payload_agree_refl p : payload_agree p p.
Proof. by left. Qed.

Lemma call_agree_refl c : call_agree c c.
Proof. destruct c; cbn; [done..|]. split_and!; [done..|apply payload_agree_refl]. Qed.

Lemma calls_agree_refl l : Forall2 call_agree l l.
Proof. induction l; constructor; [apply call_agree_refl|done]. Qed.

(** X7: an empty member set is not observable: in two states with the same
    registry and the same member sets (their indexes may differ in empty
    entries) every event makes the same calls on the transport, up to the
    order of the entries of a peer list, raises the same exception, and
    leads to two states that again have the same registry and member
    sets. *)
Theorem presence_congruence (py_str : Value → string) st1 st2 ev :
  same_presence st1 st2 →
  Forall2 call_agree (res_out (handle py_str ev st1)) (res_out (handle py_str ev st2)) ∧
  res_val (handle py_str ev st2) = res_val (handle py_str ev st1) ∧
  same_presence (res_st (handle py_str ev st1)) (res_st (handle py_str ev st2)).
Proof.
  intros Hsame.
  destruct (handle_same_presence py_str st1 st2 ev Hsame) as (Hout & Hval & Hst).
  split_and!; [|done..]. rewrite Hout. apply calls_agree_refl.
Qed.

Lemma presence_congruence_witness :
  same_presence init (res_st (leave "p" (room_doc "a") init)) ∧
  Forall2 call_agree
    (res_out (handle str_of (ListPeers "q" (room_doc "a")) init))
    (res_out (handle str_of (ListPeers "q" (room_doc "a"))
                (res_st (leave "p" (room_doc "a") init)))).
Proof.
  assert (H : same_presence init (res_st (leave "p" (room_doc "a") init))).
  { unfold room_doc.
    rewrite (leave_accepts "p" [("room", VStr "a")] (KStr "a") init eq_refl eq_refl).
    split; [reflexivity|]. intros k. cbn [res_st]. unfold after_leave.
    rewrite members_insert. case_decide; [|done]. unfold members, init. cbn [rooms].
    rewrite !lookup_empty. cbn [default].
    apply set_eq. intros x. rewrite elem_of_difference.
    split; [by intros [? _] | by intros ?%not_elem_of_empty]. }
  split; [exact H|].
  apply (presence_congruence str_of init _ (ListPeers "q" (room_doc "a")) H).
Defined.

(** ** Join and leave *)

Lemma peer_entry_inj st : Inj (=) (=) (peer_entry st).
Proof. intros a b [= ->]. done. Qed.

(** X8: a peer list has no duplicate entry, and lists no id under two
    names. *)
Theorem peer_list_no_duplicates st k :
  NoDup (peer_list st k) ∧
  ∀ sid name name', VDict [("sid", VStr sid); ("name", name)] ∈ peer_list st k →
                    VDict [("sid", VStr sid); ("name", name')] ∈ peer_list st k →
                    name = name'.
Proof.
  split.
  - unfold peer_list. apply (NoDup_fmap_2 _ (Inj0:=peer_entry_inj st)), NoDup_elements.
  - intros sid name name'. unfold peer_list. rewrite !list_elem_of_fmap.
    intros (s1 & [= -> ->] & _) (s2 & [= <- ->] & _). done.
Qed.

Lemma peer_list_no_duplicates_witness :
  NoDup (peer_list st_AB (KStr "lobby")).
Proof.
  apply (peer_list_no_duplicates st_AB (KStr "lobby")).
Defined.

(** X9: a join that gets through enters the transport room, emits
    peer-joined to the room without the joiner, then the peer list to the
    whole room; that list holds the joiner under the name it gave (its id
    when the name is false) and every member the room had, its length is
    the size of the new member set, and no other member set changes. *)
Theorem join_lists_joiner sid d k st :
  truthy (dict_get d "room") = true →
  hash_key (dict_get d "room") = Some k →
  let room := dict_get d "room" in
  let name := py_or (dict_get d "name") (VStr sid) in
  let st' := res_st (join sid (VDict d) st) in
  ∃ peers,
    join sid (VDict d) st =
      mkRes st'
        [EnterRoom sid room;
         Emit "peer-joined" (sid_payload sid) (ToRoom room (Some sid));
         Emit "peer-list" (VDict [("peers", VList peers)]) (ToRoom room None)]
        (inr ()) ∧
    VDict [("sid", VStr sid); ("name", name)] ∈ peers ∧
    (∀ sid0, sid0 ∈ members st k → ∃ name0, VDict [("sid", VStr sid0); ("name", name0)] ∈ peers) ∧
    length peers = size (members st k ∪ {[sid]}) ∧
    members st' k = members st k ∪ {[sid]} ∧
    (∀ k', k' ≠ k → members st' k' = members st k').
Proof.
  intros Hr Hk room name st'. subst st'.
  rewrite (join_accepts sid d k st Hr Hk). cbn [res_st].
  set (st' := mkState _ _).
  assert (Hmem : members st' k = members st k ∪ {[sid]})
    by (unfold st'; by rewrite members_insert, decide_True).
  exists (peer_list st' k). split_and!.
  - done.
  - unfold peer_list. apply list_elem_of_fmap. exists sid. split.
    + unfold peer_entry, display_name, st'. cbn [peer_meta].
      by rewrite lookup_insert_eq.
    + apply elem_of_elements. rewrite Hmem.
      apply elem_of_union_r. by apply elem_of_singleton.
  - intros sid0 Hin. exists (display_name st' sid0).
    unfold peer_list. apply list_elem_of_fmap. exists sid0. split; [done|].
    apply elem_of_elements. rewrite Hmem. by apply elem_of_union_l.
  - unfold peer_list. by rewrite length_fmap, Hmem.
  - done.
  - intros k' Hne. unfold st'. by rewrite members_insert, decide_False.
Qed.

Lemma join_lists_joiner_witness :
  truthy (VStr "lobby") = true ∧ hash_key (VStr "lobby") = Some (KStr "lobby") ∧
  members (res_st (join "B" (join_doc "lobby" "Bob") st_A)) (KStr "lobby") =
    members st_A (KStr "lobby") ∪ {["B"]}.
Proof.
  split; [reflexivity|]. split; [reflexivity|].
  destruct (join_lists_joiner "B" [("room", VStr "lobby"); ("name", VStr "Bob")]
              (KStr "lobby") st_A eq_refl eq_refl) as (peers & _ & _ & _ & _ & H & _).
  exact H.
Defined.

(** X10: repeating a join from the state it led to gives the same state,
    the same calls and the same result: join is idempotent on the registry
    and the index, and emits again. *)
Theorem join_twice sid data st :
  join sid data (res_st (join sid data st)) = join sid data st.
Proof.
  rewrite (join_eval sid data st). destruct (document data) as [e|d] eqn:Hdoc;
    [by rewrite join_eval, Hdoc|].
  cbv zeta. destruct (truthy (dict_get d "room")) eqn:Hr;
    [|cbn [res_st]; rewrite join_eval, Hdoc; cbv zeta; by rewrite Hr].
  destruct (hash_key (dict_get d "room")) as [k|] eqn:Hk;
    [|cbn [res_st]; rewrite join_eval, Hdoc; cbv zeta; by rewrite Hr, Hk].
  cbn [res_st]. rewrite join_eval, Hdoc. cbv zeta. rewrite Hr, Hk.
  match goal with |- context [after_join (after_join st sid k ?n ?r) sid k ?n ?r] =>
    assert (after_join (after_join st sid k n r) sid k n r = after_join st sid k n r) as ->
  end; [|done].
  unfold after_join. rewrite members_insert, decide_True by done. cbn [rooms peer_meta].
  rewrite !insert_insert_eq. by rewrite <-(assoc_L (∪)), (idemp_L (∪)).
Qed.

(** X11: for a peer that has no registry entry and is not in the room,
    join followed by leave of the same room, the room not being NaN, gives
    back the registry and every member set. *)
Theorem join_leave_round_trip sid d d' k st :
  truthy (dict_get d "room") = true → hash_key (dict_get d "room") = Some k →
  truthy (dict_get d' "room") = true → hash_key (dict_get d' "room") = Some k →
  k ≠ KNaN →
  peer_meta st !! sid = None → sid ∉ members st k →
  same_presence st (res_st (leave sid (VDict d') (res_st (join sid (VDict d) st)))).
Proof.
  intros Hr Hk Hr' Hk' Hnan Hm Hin.
  rewrite (join_accepts sid d k st Hr Hk). cbn [res_st].
  rewrite (leave_accepts sid d' k _ Hr' Hk'). cbn [res_st]. unfold after_leave.
  cbn [peer_meta rooms]. rewrite lookup_insert_eq. cbn [m_room].
  rewrite (proj2 (py_eq_key_true _ _) (conj Hk Hnan)). split.
  - cbn [peer_meta]. by rewrite delete_insert_eq, delete_id.
  - intros k'. rewrite members_insert. case_decide as Hkk.
    + subst k'. rewrite members_insert, decide_True by done.
      apply set_eq. intros x.
      rewrite elem_of_difference, elem_of_union, elem_of_singleton.
      split; [tauto|]. intros Hx. split; [by left|]. by intros ->.
    + rewrite lookup_insert_ne by done. done.
Qed.

Lemma join_leave_round_trip_witness :
  KStr "lobby" ≠ KNaN ∧
  peer_meta st_A !! "B" = None ∧ ("B" ∉ members st_A (KStr "lobby")) ∧
  same_presence st_A
    (res_st (leave "B" (room_doc "lobby") (res_st (join "B" (join_doc "lobby" "Bob") st_A)))).
Proof.
  assert (H1 : peer_meta st_A !! "B" = None) by (vm_compute; reflexivity).
  assert (H2 : "B" ∉ members st_A (KStr "lobby"))
    by (apply (bool_decide_unpack _); vm_compute; exact I).
  assert (H0 : KStr "lobby" ≠ KNaN) by discriminate.
  split; [exact H0|]. split; [exact H1|]. split; [exact H2|].
  apply (join_leave_round_trip "B" [("room", VStr "lobby"); ("name", VStr "Bob")]
           [("room", VStr "lobby")] (KStr "lobby") st_A eq_refl eq_refl eq_refl eq_refl
           H0 H1 H2).
Defined.

(** X12: a leave that gets through leaves the transport room, emits
    peer-left to the whole room (the leaver not skipped), then a peer list
    that does not hold the leaver and holds every other member under its
    name. *)
Theorem leave_output sid d k st :
  truthy (dict_get d "room") = true →
  hash_key (dict_get d "room") = Some k →
  let room := dict_get d "room" in
  ∃ peers,
    res_out (leave sid (VDict d) st) =
      [LeaveRoom sid room;
       Emit "peer-left" (sid_payload sid) (ToRoom room None);
       Emit "peer-list" (VDict [("peers", VList peers)]) (ToRoom room None)] ∧
    res_val (leave sid (VDict d) st) = inr () ∧
    (∀ name, VDict [("sid", VStr sid); ("name", name)] ∉ peers) ∧
    (∀ sid0, sid0 ≠ sid → sid0 ∈ members st k →
             VDict [("sid", VStr sid0); ("name", display_name st sid0)] ∈ peers).
Proof.
  intros Hr Hk room. rewrite (leave_accepts sid d k st Hr Hk). cbn [res_out res_val].
  set (st' := after_leave st sid k).
  assert (Hmem : members st' k = members st k ∖ {[sid]})
    by (unfold st', after_leave; by rewrite members_insert, decide_True).
  exists (peer_list st' k). split_and!; [done..| |].
  - intros name. unfold peer_list. rewrite list_elem_of_fmap.
    intros (s & [= <- _] & Hs). apply elem_of_elements in Hs. rewrite Hmem in Hs.
    apply elem_of_difference in Hs as [_ Hs]. by apply Hs, elem_of_singleton.
  - intros sid0 Hne Hin. unfold peer_list. apply list_elem_of_fmap. exists sid0. split.
    + unfold peer_entry, display_name, st', after_leave. cbn [peer_meta]. do 3 f_equal.
      destruct (peer_meta st !! sid) as [m|]; [|done].
      destruct (py_eq_key (m_room m) k); [|done]. by rewrite lookup_delete_ne.
    + apply elem_of_elements. rewrite Hmem. apply elem_of_difference.
      split; [done|]. by intros ?%elem_of_singleton.
Qed.

Lemma leave_output_witness :
  truthy (VStr "lobby") = true ∧ hash_key (VStr "lobby") = Some (KStr "lobby") ∧
  ∃ peers,
    res_out (leave "A" (room_doc "lobby") st_AB) =
      [LeaveRoom "A" (VStr "lobby");
       Emit "peer-left" (sid_payload "A") (ToRoom (VStr "lobby") None);
       Emit "peer-list" (VDict [("peers", VList peers)]) (ToRoom (VStr "lobby") None)] ∧
    ∀ name, VDict [("sid", VStr "A"); ("name", name)] ∉ peers.
Proof.
  split; [reflexivity|]. split; [reflexivity|].
  destruct (leave_output "A" [("room", VStr "lobby")] (KStr "lobby") st_AB eq_refl eq_refl)
    as (peers & Hout & _ & Hnot & _).
  exists peers. split; [exact Hout | exact Hnot].
Defined.

(** X13: leaving a room that has no entry in the index, in a state that
    satisfies the registry-to-index invariant, keeps the registry and every
    member set, yet creates an empty entry for the room and emits peer-left
    and an empty peer list to it. *)
Theorem leave_unknown_room sid d k st :
  truthy (dict_get d "room") = true →
  hash_key (dict_get d "room") = Some k →
  rooms st !! k = None →
  registry_in_index st →
  let room := dict_get d "room" in
  let st' := res_st (leave sid (VDict d) st) in
  same_presence st st' ∧
  rooms st' !! k = Some ∅ ∧
  res_out (leave sid (VDict d) st) =
    [LeaveRoom sid room;
     Emit "peer-left" (sid_payload sid) (ToRoom room None);
     Emit "peer-list" (VDict [("peers", VList [])]) (ToRoom room None)].
Proof.
  intros Hr Hk Hnone Hinv room st'. subst st'.
  rewrite (leave_accepts sid d k st Hr Hk). cbn [res_st res_out].
  assert (Hempty : members st k = ∅) by (unfold members; by rewrite Hnone).
  assert (Hreg : ∀ m, peer_meta st !! sid = Some m → hash_key (m_room m) ≠ Some k).
  { intros m Hm Hmk. destruct (Hinv _ _ Hm) as (k' & Hk' & Hin).
    assert (k' = k) as -> by congruence. rewrite Hempty in Hin.
    by apply not_elem_of_empty in Hin. }
  assert (Hpm : peer_meta (after_leave st sid k) = peer_meta st).
  { unfold after_leave. cbn [peer_meta]. destruct (peer_meta st !! sid) as [m|] eqn:Hm; [|done].
    rewrite (proj2 (py_eq_key_false _ _)); [done|]. left. by apply Hreg. }
  assert (Hk' : rooms (after_leave st sid k) !! k = Some ∅).
  { unfold after_leave. cbn [rooms]. rewrite lookup_insert_eq, Hempty. f_equal.
    apply set_eq. intros x. rewrite elem_of_difference. split; [tauto|].
    by intros ?%not_elem_of_empty. }
  split_and!; [|done|].
  - split; [done|]. intros k'. unfold members at 1.
    destruct (decide (k = k')) as [<-|Hne]; [by rewrite Hk', Hempty|].
    unfold after_leave. cbn [rooms]. by rewrite lookup_insert_ne.
  - unfold peer_list_call, peer_list, members. by rewrite Hk'.
Qed.

Lemma leave_unknown_room_witness :
  rooms st_A !! KStr "attic" = None ∧ registry_in_index st_A ∧
  res_out (leave "A" (room_doc "attic") st_A) =
    [LeaveRoom "A" (VStr "attic");
     Emit "peer-left" (sid_payload "A") (ToRoom (VStr "attic") None);
     Emit "peer-list" (VDict [("peers", VList [])]) (ToRoom (VStr "attic") None)].
Proof.
  assert (H1 : rooms st_A !! KStr "attic" = None) by (vm_compute; reflexivity).
  assert (H2 : registry_in_index st_A).
    by apply registry_in_index_st_A.
  split; [exact H1|]. split; [exact H2|].
  apply (leave_unknown_room "A" [("room", VStr "attic")] (KStr "attic") st_A
           eq_refl eq_refl H1 H2).
Defined.

(** ** Disconnect *)

(** X14: the disconnect of a registered peer removes its registry entry
    and removes it from the member set of the recorded room only: every
    other member set is unchanged; it emits peer-left and then a peer list,
    without the peer, to the recorded room. *)
Theorem disconnect_recorded_room_only sid m k st :
  peer_meta st !! sid = Some m →
  truthy (m_room m) = true → hash_key (m_room m) = Some k →
  let st' := res_st (disconnect sid st) in
  peer_meta st' = delete sid (peer_meta st) ∧
  members st' k = members st k ∖ {[sid]} ∧
  (∀ k', k' ≠ k → members st' k' = members st k') ∧
  ∃ peers,
    res_out (disconnect sid st) =
      [Emit "peer-left" (sid_payload sid) (ToRoom (m_room m) None);
       Emit "peer-list" (VDict [("peers", VList peers)]) (ToRoom (m_room m) None)] ∧
    ∀ name, VDict [("sid", VStr sid); ("name", name)] ∉ peers.
Proof.
  intros Hm Hr Hk st'. subst st'.
  rewrite disconnect_eval, Hm. cbv zeta. rewrite Hr, Hk. cbn [res_st res_out].
  set (st' := after_disconnect st sid k).
  assert (Hmem : members st' k = members st k ∖ {[sid]})
    by (unfold st', after_disconnect; by rewrite members_insert, decide_True).
  split_and!; [done..| |].
  - intros k' Hne. unfold st', after_disconnect. by rewrite members_insert, decide_False.
  - exists (peer_list st' k). split; [done|].
    intros name. unfold peer_list. rewrite list_elem_of_fmap.
    intros (s & [= <- _] & Hs). apply elem_of_elements in Hs. rewrite Hmem in Hs.
    apply elem_of_difference in Hs as [_ Hs]. by apply Hs, elem_of_singleton.
Qed.

Lemma disconnect_recorded_room_only_witness :
  peer_meta st_AB !! "A" = Some (mkMeta (VStr "Alice") (VStr "lobby")) ∧
  members (res_st (disconnect "A" st_AB)) (KStr "lobby") =
    members st_AB (KStr "lobby") ∖ {["A"]}.
Proof.
  assert (H : peer_meta st_AB !! "A" = Some (mkMeta (VStr "Alice") (VStr "lobby")))
    by (vm_compute; reflexivity).
  split; [exact H|].
  apply (disconnect_recorded_room_only "A" (mkMeta (VStr "Alice") (VStr "lobby"))
           (KStr "lobby") st_AB H eq_refl eq_refl).
Defined.

(** X15: in a reachable state disconnect never raises; for a peer without
    registry entry it does nothing, and for a registered peer it emits
    peer-left and a peer list to the recorded room, the list being as long
    as the member set without the peer: unless the recorded room is NaN,
    the peer was a member and the list is one shorter than the member set
    was. *)
Theorem disconnect_reachable (py_str : Value → string) st sid :
  reachable py_str st →
  res_val (disconnect sid st) = inr () ∧
  (peer_meta st !! sid = None → disconnect sid st = mkRes st [] (inr ())) ∧
  (∀ m, peer_meta st !! sid = Some m →
        ∃ k peers, hash_key (m_room m) = Some k ∧
          res_out (disconnect sid st) =
            [Emit "peer-left" (sid_payload sid) (ToRoom (m_room m) None);
             Emit "peer-list" (VDict [("peers", VList peers)]) (ToRoom (m_room m) None)] ∧
          length peers = size (members st k ∖ {[sid]}) ∧
          (k ≠ KNaN → sid ∈ members st k ∧ length peers + 1 = size (members st k))).
Proof.
  intros Hreach.
  pose proof (reachable_rooms_ok _ _ Hreach) as Hok.
  pose proof (reachable_in_index_unless_nan _ _ Hreach) as Hinv.
  split_and!.
  - rewrite disconnect_eval. destruct (peer_meta st !! sid) as [m|] eqn:Hm; [|done].
    destruct (Hok _ _ Hm) as [Hr _]. destruct (Hinv _ _ Hm) as (k & Hk & _).
    cbv zeta. by rewrite Hr, Hk.
  - apply disconnect_absent.
  - intros m Hm. destruct (Hok _ _ Hm) as [Hr _]. destruct (Hinv _ _ Hm) as (k & Hk & Hin).
    rewrite disconnect_eval, Hm. cbv zeta. rewrite Hr, Hk. cbn [res_out].
    eexists k, _. split; [done|]. split; [done|].
    assert (Hlen : length (peer_list (after_disconnect st sid k) k) =
                   size (members st k ∖ {[sid]})).
    { unfold peer_list, after_disconnect.
      by rewrite length_fmap, members_insert, decide_True by done. }
    split; [done|]. intros Hnan. specialize (Hin Hnan). split; [done|].
    rewrite Hlen, size_difference by (by apply singleton_subseteq_l).
    rewrite size_singleton.
    assert (size (members st k) ≠ 0); [|lia].
    intros Hz%size_empty_inv. by apply (Hz sid) in Hin.
Qed.

Lemma disconnect_reachable_witness :
  reachable str_of st_AB ∧ res_val (disconnect "A" st_AB) = inr ().
Proof.
  split; [apply reachable_st_AB|].
  apply (disconnect_reachable str_of st_AB "A" reachable_st_AB).
Defined.

(** X16: a peer that joined two different rooms and then disconnects is
    removed from the second room only: it has no registry entry any more but
    is still a member of the first room, whose peer list shows it under its
    id. *)
Theorem stale_member_after_disconnect sid d1 d2 k1 k2 st :
  truthy (dict_get d1 "room") = true → hash_key (dict_get d1 "room") = Some k1 →
  truthy (dict_get d2 "room") = true → hash_key (dict_get d2 "room") = Some k2 →
  k1 ≠ k2 →
  let st' := res_st (disconnect sid
                (res_st (join sid (VDict d2) (res_st (join sid (VDict d1) st))))) in
  peer_meta st' !! sid = None ∧
  (sid ∉ members st' k2) ∧
  sid ∈ members st' k1 ∧
  VDict [("sid", VStr sid); ("name", VStr sid)] ∈ peer_list st' k1.
Proof.
  intros Hr1 Hk1 Hr2 Hk2 Hne st'. subst st'.
  rewrite (join_accepts sid d1 k1 st Hr1 Hk1). cbn [res_st].
  rewrite (join_accepts sid d2 k2 _ Hr2 Hk2). cbn [res_st].
  rewrite disconnect_eval. cbn [peer_meta]. rewrite lookup_insert_eq. cbv zeta.
  cbn [m_room]. rewrite Hr2, Hk2. cbn [res_st]. unfold after_disconnect.
  cbn [peer_meta rooms].
  set (st' := mkState _ _).
  assert (Hgone : peer_meta st' !! sid = None) by apply lookup_delete_eq.
  assert (Hin : sid ∈ members st' k1).
  { unfold st'. rewrite members_insert, decide_False by done.
    rewrite lookup_insert_ne by done. rewrite lookup_insert_eq. cbn.
    apply elem_of_union_r. by apply elem_of_singleton. }
  split_and!; [done| |done|].
  - unfold st'. rewrite members_insert, decide_True by done.
    intros [_ H]%elem_of_difference. by apply H, elem_of_singleton.
  - unfold peer_list. apply list_elem_of_fmap. exists sid. split.
    + unfold peer_entry, display_name. by rewrite Hgone.
    + by apply elem_of_elements.
Qed.

Lemma stale_member_after_disconnect_witness :
  KStr "a" ≠ KStr "b" ∧
  "p" ∈ members
    (res_st (disconnect "p"
       (res_st (join "p" (room_doc "b") (res_st (join "p" (room_doc "a") init))))))
    (KStr "a").
Proof.
  assert (Hne : KStr "a" ≠ KStr "b") by done.
  split; [exact Hne|].
  apply (stale_member_after_disconnect "p" [("room", VStr "a")] [("room", VStr "b")]
           (KStr "a") (KStr "b") init eq_refl eq_refl eq_refl eq_refl Hne).
Defined.

(** ** Rename and list_peers *)

(** X17: the rename of a registered peer changes its display name to the
    string of the given name, keeps its room, the other entries and the
    index, and emits to the recorded room one peer list that shows the peer
    under the new name. *)
Theorem rename_visible (py_str : Value → string) sid d info k st :
  truthy (dict_get d "name") = true →
  peer_meta st !! sid = Some info →
  truthy (m_room info) = true → hash_key (m_room info) = Some k →
  sid ∈ members st k →
  let new_name := VStr (py_str (dict_get d "name")) in
  let st' := res_st (rename py_str sid (VDict d) st) in
  rooms st' = rooms st ∧
  peer_meta st' = <[sid := mkMeta new_name (m_room info)]> (peer_meta st) ∧
  ∃ peers,
    rename py_str sid (VDict d) st =
      mkRes st' [Emit "peer-list" (VDict [("peers", VList peers)]) (ToRoom (m_room info) None)]
            (inr ()) ∧
    VDict [("sid", VStr sid); ("name", new_name)] ∈ peers ∧
    length peers = size (members st k).
Proof.
  intros Hn Hi Hr Hk Hin new_name st'. subst st'.
  rewrite rename_eval, (document_room _ _ Hn). cbv zeta. rewrite Hn, Hi, Hr, Hk.
  cbn [res_st]. set (st' := after_rename _ _ _ _). split_and!; [done..|].
  exists (peer_list st' k). split_and!; [done| |].
  - unfold peer_list. apply list_elem_of_fmap. exists sid. split.
    + unfold peer_entry, display_name, st', after_rename. cbn [peer_meta].
      by rewrite lookup_insert_eq.
    + by apply elem_of_elements.
  - unfold peer_list. by rewrite length_fmap.
Qed.

Lemma rename_visible_witness :
  peer_meta st_AB !! "A" = Some (mkMeta (VStr "Alice") (VStr "lobby")) ∧
  "A" ∈ members st_AB (KStr "lobby") ∧
  peer_meta (res_st (rename str_of "A" (VDict [("name", VStr "Al")]) st_AB)) =
    <["A" := mkMeta (VStr "Al") (VStr "lobby")]> (peer_meta st_AB).
Proof.
  assert (H1 : peer_meta st_AB !! "A" = Some (mkMeta (VStr "Alice") (VStr "lobby")))
    by (vm_compute; reflexivity).
  assert (H2 : "A" ∈ members st_AB (KStr "lobby"))
    by (apply (bool_decide_unpack _); vm_compute; exact I).
  split; [exact H1|]. split; [exact H2|].
  apply (rename_visible str_of "A" [("name", VStr "Al")]
           (mkMeta (VStr "Alice") (VStr "lobby")) (KStr "lobby") st_AB
           eq_refl H1 eq_refl eq_refl H2).
Defined.

(** X18: after a peer left a room that its recorded room equals it has no
    registry entry: a rename changes nothing and emits nothing, and the
    peer's display name is its id again. *)
Theorem rename_after_leave_dropped (py_str : Value → string) sid data dl k m st :
  truthy (dict_get dl "room") = true → hash_key (dict_get dl "room") = Some k →
  peer_meta st !! sid = Some m → py_eq_key (m_room m) k = true →
  let st' := res_st (leave sid (VDict dl) st) in
  peer_meta st' !! sid = None ∧
  res_st (rename py_str sid data st') = st' ∧
  res_out (rename py_str sid data st') = [] ∧
  display_name st' sid = VStr sid.
Proof.
  intros Hr Hk Hm Hmk st'.
  assert (Hgone : peer_meta st' !! sid = None).
  { subst st'. rewrite (leave_accepts sid dl k st Hr Hk). cbn [res_st].
    unfold after_leave. cbn [peer_meta].
    rewrite Hm, Hmk. apply lookup_delete_eq. }
  assert (Hdrop : res_st (rename py_str sid data st') = st' ∧
                  res_out (rename py_str sid data st') = []).
  { rewrite rename_eval. destruct (document data) as [e|d]; [done|]. cbv zeta.
    rewrite Hgone. by destruct (truthy (dict_get d "name")). }
  destruct Hdrop. split_and!; [done..|].
  unfold display_name. by rewrite Hgone.
Qed.

Lemma rename_after_leave_dropped_witness :
  peer_meta st_A !! "A" = Some (mkMeta (VStr "Alice") (VStr "lobby")) ∧
  res_out (rename str_of "A" (VDict [("name", VStr "Al")])
             (res_st (leave "A" (room_doc "lobby") st_A))) = [].
Proof.
  assert (H : peer_meta st_A !! "A" = Some (mkMeta (VStr "Alice") (VStr "lobby")))
    by (vm_compute; reflexivity).
  split; [exact H|].
  apply (rename_after_leave_dropped str_of "A" (VDict [("name", VStr "Al")])
           [("room", VStr "lobby")] (KStr "lobby") (mkMeta (VStr "Alice") (VStr "lobby"))
           st_A eq_refl eq_refl H eq_refl).
Defined.

(** X19: list_peers changes nothing and emits the peer list of the
    requested room to that room, whoever asks; for a room without entry the
    list is empty. *)
Theorem list_peers_spec sid d k st :
  truthy (dict_get d "room") = true →
  hash_key (dict_get d "room") = Some k →
  list_peers sid (VDict d) st =
    mkRes st [Emit "peer-list" (VDict [("peers", VList (peer_list st k))])
                (ToRoom (dict_get d "room") None)] (inr ()) ∧
  (rooms st !! k = None → peer_list st k = []).
Proof.
  intros Hr Hk. split.
  - rewrite list_peers_eval, (document_room _ _ Hr). cbv zeta. by rewrite Hr, Hk.
  - intros Hn. unfold peer_list, members. rewrite Hn. simpl. by rewrite elements_empty.
Qed.

Lemma list_peers_spec_witness :
  rooms init !! KStr "nowhere" = None ∧
  list_peers "q" (room_doc "nowhere") init =
    mkRes init [Emit "peer-list" (VDict [("peers", VList (peer_list init (KStr "nowhere")))])
                  (ToRoom (VStr "nowhere") None)] (inr ()) ∧
  peer_list init (KStr "nowhere") = [].
Proof.
  assert (H : rooms init !! KStr "nowhere" = None) by apply lookup_empty.
  split; [exact H|].
  destruct (list_peers_spec "q" [("room", VStr "nowhere")] (KStr "nowhere") init
              eq_refl eq_refl) as [H1 H2].
  split; [exact H1 | exact (H2 H)].
Defined.

(** ** The relays *)

(** X20: a signal with a true room is relayed to that room, the sender
    skipped, in any state: the room is not looked up in the index (it need
    not be hashable, the sender need not be a member), and an absent payload
    is relayed as [None]. *)
Theorem signal_relay sid d st :
  truthy (dict_get d "room") = true →
  signal sid (VDict d) st =
    mkRes st
      [Emit "signal" (VDict [("from", VStr sid); ("payload", dict_get d "payload")])
         (ToRoom (dict_get d "room") (Some sid))]
      (inr ()) ∧
  (has_key d "payload" = false → dict_get d "payload" = VNone).
Proof.
  intros Hr. split; [|apply has_key_false_get].
  rewrite signal_eval, (document_room _ _ Hr). by rewrite Hr.
Qed.

Lemma signal_relay_witness :
  truthy (VList [VInt 1]) = true ∧
  signal "s" (VDict [("room", VList [VInt 1])]) init =
    mkRes init
      [Emit "signal" (VDict [("from", VStr "s"); ("payload", VNone)])
         (ToRoom (VList [VInt 1]) (Some "s"))]
      (inr ()).
Proof.
  split; [reflexivity|].
  apply (signal_relay "s" [("room", VList [VInt 1])] init eq_refl).
Defined.

(** X21: an offer-response with true room and target is emitted to the
    target alone, with the sender's display name and [accepted] coerced to a
    boolean; absent [accepted], [payload] and [offer] are relayed as
    [False], [None] and [None]. *)
Theorem offer_response_relay sid d st :
  truthy (dict_get d "room") = true →
  truthy (dict_get d "target") = true →
  offer_response sid (VDict d) st =
    mkRes st
      [Emit "offer-response"
         (VDict [("from", VStr sid); ("name", display_name st sid);
                 ("accepted", VBool (truthy (dict_get d "accepted")));
                 ("payload", dict_get d "payload");
                 ("offer", dict_get d "offer")])
         (ToSid (dict_get d "target"))]
      (inr ()) ∧
  (has_key d "accepted" = false → truthy (dict_get d "accepted") = false) ∧
  (has_key d "payload" = false → dict_get d "payload" = VNone) ∧
  (has_key d "offer" = false → dict_get d "offer" = VNone).
Proof.
  intros Hr Ht. split_and!.
  - rewrite offer_response_eval, (document_room _ _ Hr). by rewrite Hr, Ht.
  - intros H. by rewrite (has_key_false_get _ _ H).
  - apply has_key_false_get.
  - apply has_key_false_get.
Qed.

Lemma offer_response_relay_witness :
  truthy (VStr "r") = true ∧ truthy (VStr "t") = true ∧
  offer_response "s" (VDict [("room", VStr "r"); ("target", VStr "t")]) init =
    mkRes init
      [Emit "offer-response"
         (VDict [("from", VStr "s"); ("name", VStr "s"); ("accepted", VBool false);
                 ("payload", VNone); ("offer", VNone)])
         (ToSid (VStr "t"))]
      (inr ()).
Proof.
  split; [reflexivity|]. split; [reflexivity|].
  apply (offer_response_relay "s" [("room", VStr "r"); ("target", VStr "t")] init
           eq_refl eq_refl).
Defined.

(** X22: among the events of any other peers, and as long as the peer
    does not disconnect, the peer is a member of exactly the rooms it joined
    and has not left since, and a registry entry of the peer records the
    room of its last join that got through, of which it is a member unless
    that room is NaN. *)
Theorem interleaved_membership (py_str : Value → string) sid evs st0 :
  fresh_peer st0 sid →
  Disconnect sid ∉ evs →
  let st := run py_str evs st0 in
  let ops := omap (own_op sid) evs in
  (∀ k, sid ∈ members st k ↔ k ∈ joined_rooms ops) ∧
  (∀ m, peer_meta st !! sid = Some m →
        hash_key (m_room m) = last_join ops ∧
        ∃ k, last_join ops = Some k ∧ (k ≠ KNaN → sid ∈ members st k)).
Proof.
  intros Hfresh Hdis st ops.
  destruct (run_tracks_interleaved py_str sid evs st0 ∅ None Hdis (fresh_tracks _ _ Hfresh))
    as [Hmem Hreg].
  split; [done|]. intros m Hm. destruct (Hreg m Hm) as (Hh & k & Hl & Hin).
  split; [done|]. exists k. split; [done|]. intros Hnan. by apply Hmem, Hin.
Qed.

Lemma interleaved_membership_witness :
  fresh_peer init "A" ∧
  (Disconnect "A" ∉ [Join "A" (room_doc "a"); Join "B" (room_doc "a");
                     Leave "A" (room_doc "a"); Disconnect "B"; Join "A" (room_doc "b")]) ∧
  ∀ k, "A" ∈ members
         (run str_of [Join "A" (room_doc "a"); Join "B" (room_doc "a");
                      Leave "A" (room_doc "a"); Disconnect "B"; Join "A" (room_doc "b")] init) k ↔
       k ∈ joined_rooms [OpJoin (room_doc "a"); OpLeave (room_doc "a"); OpJoin (room_doc "b")].
Proof.
  assert (Hdis : Disconnect "A" ∉ [Join "A" (room_doc "a"); Join "B" (room_doc "a");
                    Leave "A" (room_doc "a"); Disconnect "B"; Join "A" (room_doc "b")]).
  { rewrite !not_elem_of_cons. split_and!; try done. apply not_elem_of_nil. }
  split; [apply fresh_peer_init|]. split; [exact Hdis|].
  apply (interleaved_membership str_of "A" _ init (fresh_peer_init "A") Hdis).
Defined.
